(** * libtrace: configuration of the Cortex-M trace components

    A shallow embedding of the header-only library
    [libs/trace/include/orbcode/trace/{itm,dwt,tpiu}.h].

    The C functions only touch memory-mapped registers, so every function is
    a computation over a [machine]: the register file, the trace of register
    writes performed so far, and the behaviour of the stimulus-port FIFO.
    Computations live in a small state-and-failure monad [M]; a computation
    ends ([Done]), is still busy-waiting when its fuel runs out ([Spinning]),
    or leaves the C abstract machine ([Undefined]). *)

From Stdlib Require Import ZArith Lia List Bool.
Import ListNotations.

Local Open Scope Z_scope.

(** ** Machine integers *)

(** Conversion to [uint32_t], [uint16_t], [uint8_t]. *)
Definition u32 (z : Z) : Z := z mod 2 ^ 32.
Definition u16 (z : Z) : Z := z mod 2 ^ 16.
Definition u8 (z : Z) : Z := z mod 2 ^ 8.

(** Wrap-around of a 32-bit [int] (two's complement, as GCC defines it). *)
Definition s32 (z : Z) : Z := (z + 2 ^ 31) mod 2 ^ 32 - 2 ^ 31.

(** The C expression [flag ? 1 : 0]. *)
Definition b2i (b : bool) : Z := if b then 1 else 0.

(** ** Memory-mapped registers *)

Inductive reg : Type :=
| CoreDebug_DEMCR
| ITM_LAR | ITM_TCR | ITM_TER
| DWT_LAR | DWT_CTRL
| DWT_COMP0 | DWT_MASK0 | DWT_FUNCTION0
| DWT_COMP1 | DWT_MASK1 | DWT_FUNCTION1
| DWT_COMP2 | DWT_MASK2 | DWT_FUNCTION2
| DWT_COMP3 | DWT_MASK3 | DWT_FUNCTION3
| TPI_ACPR | TPI_SPPR | TPI_CSPSR | TPI_FFCR.

Definition reg_eq_dec (a b : reg) : {a = b} + {a <> b}.
Proof. decide equality. Defined.

(** Access width of a stimulus port ([PORT[n].u8], [.u16], [.u32]). *)
Inductive width : Type := W8 | W16 | W32.

Definition width_bytes (w : width) : nat :=
  match w with W8 => 1 | W16 => 2 | W32 => 4 end%nat.

(** A register write as seen on the bus. *)
Inductive event : Type :=
| RegWrite (r : reg) (v : Z)
| StimWrite (port : Z) (w : width) (v : Z).

(** The machine.  [fifo port t] is the value the [t]-th read of a stimulus
    port status word ([ITM->PORT[port].u32]) returns; [polls] counts the
    status reads made so far. *)
Record machine : Type := mkMachine {
  regs : reg -> Z;
  writes : list event;
  fifo : Z -> nat -> Z;
  polls : nat
}.

Definition upd (r : reg) (v : Z) (f : reg -> Z) : reg -> Z :=
  fun r' => if reg_eq_dec r r' then v else f r'.

(** ** The monad *)

Inductive outcome (A : Type) : Type :=
| Done (a : A) (m : machine)
| Spinning
| Undefined.

Arguments Done {A} a m.
Arguments Spinning {A}.
Arguments Undefined {A}.

Definition M (A : Type) : Type := machine -> outcome A.

Definition ret {A} (a : A) : M A := fun m => Done a m.

Definition bind {A B} (c : M A) (k : A -> M B) : M B :=
  fun m => match c m with
           | Done a m' => k a m'
           | Spinning => Spinning
           | Undefined => Undefined
           end.

Definition undefined {A} : M A := fun _ => Undefined.

Declare Scope trace_scope.
Delimit Scope trace_scope with trace.
Notation "x <- c ;; k" := (bind c (fun x => k))
  (at level 61, c at next level, right associativity) : trace_scope.
Notation "c ;; k" := (bind c (fun _ => k))
  (at level 61, right associativity) : trace_scope.
Local Open Scope trace_scope.

(** ** What CMSIS [core_cmX.h] provides

    The library includes no CMSIS header: the bit positions below are the
    [*_Pos] macros of the vendor's [core_cmX.h], taken as parameters.  The
    [*_Msk] macros are defined from them as CMSIS does. *)

(** What the target does with a left shift whose amount is not in [0,32):
    the C standard leaves it undefined; some targets reduce the amount
    modulo 32. *)
Inductive shift_policy : Type := ShiftUndefined | ShiftModulo32.

Record cmsis : Type := mkCmsis {
  CoreDebug_DEMCR_TRCENA_Pos : Z;
  ITM_TCR_TraceBusID_Pos : Z;
  ITM_TCR_GTSFREQ_Pos : Z;
  ITM_TCR_TSPrescale_Pos : Z;
  ITM_TCR_DWTENA_Pos : Z;
  ITM_TCR_SYNCENA_Pos : Z;
  ITM_TCR_TSENA_Pos : Z;
  ITM_TCR_ITMENA_Pos : Z;
  DWT_CTRL_FOLDEVTENA_Pos : Z;
  DWT_CTRL_LSUEVTENA_Pos : Z;
  DWT_CTRL_SLEEPEVTENA_Pos : Z;
  DWT_CTRL_EXCEVTENA_Pos : Z;
  DWT_CTRL_CPIEVTENA_Pos : Z;
  DWT_CTRL_EXCTRCENA_Pos : Z;
  DWT_CTRL_PCSAMPLENA_Pos : Z;
  DWT_CTRL_SYNCTAP_Pos : Z;
  DWT_CTRL_CYCTAP_Pos : Z;
  DWT_CTRL_POSTPRESET_Pos : Z;
  DWT_CTRL_CYCCNTENA_Pos : Z;
  DWT_FUNCTION_FUNCTION_Pos : Z;
  DWT_FUNCTION_EMITRANGE_Pos : Z;
  TPI_FFCR_EnFCont_Pos : Z
}.

(** A target: its CMSIS header and its shift. *)
Record platform : Type := mkPlatform {
  header :> cmsis;
  oversized_shift : shift_policy
}.

Definition CoreDebug_DEMCR_TRCENA_Msk (C : cmsis) : Z :=
  Z.shiftl 1 (CoreDebug_DEMCR_TRCENA_Pos C).
Definition ITM_TCR_ITMENA_Msk (C : cmsis) : Z :=
  Z.shiftl 1 (ITM_TCR_ITMENA_Pos C).
Definition DWT_CTRL_CYCCNTENA_Msk (C : cmsis) : Z :=
  Z.shiftl 1 (DWT_CTRL_CYCCNTENA_Pos C).
Definition DWT_FUNCTION_FUNCTION_Msk (C : cmsis) : Z :=
  Z.shiftl 15 (DWT_FUNCTION_FUNCTION_Pos C).
Definition TPI_FFCR_EnFCont_Msk (C : cmsis) : Z :=
  Z.shiftl 1 (TPI_FFCR_EnFCont_Pos C).

(** The values of [core_cm3.h] (ARMv7-M). *)
Definition core_cm3 : cmsis :=
  {| CoreDebug_DEMCR_TRCENA_Pos := 24;
     ITM_TCR_TraceBusID_Pos := 16;
     ITM_TCR_GTSFREQ_Pos := 10;
     ITM_TCR_TSPrescale_Pos := 8;
     ITM_TCR_DWTENA_Pos := 3;
     ITM_TCR_SYNCENA_Pos := 2;
     ITM_TCR_TSENA_Pos := 1;
     ITM_TCR_ITMENA_Pos := 0;
     DWT_CTRL_FOLDEVTENA_Pos := 21;
     DWT_CTRL_LSUEVTENA_Pos := 20;
     DWT_CTRL_SLEEPEVTENA_Pos := 19;
     DWT_CTRL_EXCEVTENA_Pos := 18;
     DWT_CTRL_CPIEVTENA_Pos := 17;
     DWT_CTRL_EXCTRCENA_Pos := 16;
     DWT_CTRL_PCSAMPLENA_Pos := 12;
     DWT_CTRL_SYNCTAP_Pos := 10;
     DWT_CTRL_CYCTAP_Pos := 9;
     DWT_CTRL_POSTPRESET_Pos := 1;
     DWT_CTRL_CYCCNTENA_Pos := 0;
     DWT_FUNCTION_FUNCTION_Pos := 0;
     DWT_FUNCTION_EMITRANGE_Pos := 5;
     TPI_FFCR_EnFCont_Pos := 1 |}.

(** The Cortex-M3 with the shift of the C standard, and with a shift that
    reduces its amount modulo 32. *)
Definition cm3 : platform :=
  {| header := core_cm3; oversized_shift := ShiftUndefined |}.
Definition cm3_mod32 : platform :=
  {| header := core_cm3; oversized_shift := ShiftModulo32 |}.

(** ** Primitive accesses *)

Definition in_word (n : Z) : bool := (0 <=? n) && (n <? 32).

(** Read of an ordinary register. *)
Definition read (r : reg) : M Z := fun m => Done (regs m r) m.

(** Write of a 32-bit register. *)
Definition write (r : reg) (v : Z) : M unit :=
  fun m => Done tt {| regs := upd r (u32 v) (regs m);
                      writes := writes m ++ [RegWrite r (u32 v)];
                      fifo := fifo m;
                      polls := polls m |}.

(** [a << n] on an [int]. *)
Definition shl (P : platform) (a n : Z) : M Z :=
  if in_word n then ret (s32 (Z.shiftl a n))
  else match oversized_shift P with
       | ShiftUndefined => undefined
       | ShiftModulo32 => ret (s32 (Z.shiftl a (n mod 32)))
       end.

(** [ITM->PORT] has 32 entries; an index outside them is an access outside
    the array. *)
Definition port_index (port : Z) : M unit :=
  if in_word port then ret tt else undefined.

(** Read of [ITM->PORT[port].u32]: the FIFO status. *)
Definition read_port (port : Z) : M Z :=
  port_index port ;;
  fun m => Done (fifo m port (polls m))
                {| regs := regs m; writes := writes m;
                   fifo := fifo m; polls := S (polls m) |}.

(** Conversion to the type of a port access. *)
Definition wrap_width (w : width) (v : Z) : Z :=
  match w with W8 => u8 v | W16 => u16 v | W32 => u32 v end.

(** Write of [ITM->PORT[port].u8], [.u16] or [.u32]. *)
Definition write_port (port : Z) (w : width) (v : Z) : M unit :=
  port_index port ;;
  fun m => Done tt {| regs := regs m;
                      writes := writes m ++ [StimWrite port w (wrap_width w v)];
                      fifo := fifo m;
                      polls := polls m |}.

(** [while(ITM->PORT[port].u32 == 0UL) { __NOP(); }], at most [fuel] reads. *)
Fixpoint wait_port (fuel : nat) (port : Z) : M unit :=
  match fuel with
  | O => fun _ => Spinning
  | S fuel' =>
      status <- read_port port ;;
      if status =? 0 then wait_port fuel' port else ret tt
  end.

(** ** itm.h *)

Inductive ITMGlobalTimestampFrequency : Type :=
| ITMGlobalTimestampFrequencyDisabled
| ITMGlobalTimestampFrequencyPosition7
| ITMGlobalTimestampFrequencyPosition13
| ITMGlobalTimestampFrequencyIfOutputFIFOEmpty.

Definition ITMGlobalTimestampFrequency_int (f : ITMGlobalTimestampFrequency) : Z :=
  match f with
  | ITMGlobalTimestampFrequencyDisabled => 0
  | ITMGlobalTimestampFrequencyPosition7 => 1
  | ITMGlobalTimestampFrequencyPosition13 => 2
  | ITMGlobalTimestampFrequencyIfOutputFIFOEmpty => 3
  end.

Inductive ITMLocalTimestampPrescaler : Type :=
| ITMLocalTimestampPrescalerNoPrescaling
| ITMLocalTimestampPrescalerDivideBy4
| ITMLocalTimestampPrescalerDivideBy10
| ITMLocalTimestampPrescalerDivideBy64.

Definition ITMLocalTimestampPrescaler_int (p : ITMLocalTimestampPrescaler) : Z :=
  match p with
  | ITMLocalTimestampPrescalerNoPrescaling => 0
  | ITMLocalTimestampPrescalerDivideBy4 => 1
  | ITMLocalTimestampPrescalerDivideBy10 => 2
  | ITMLocalTimestampPrescalerDivideBy64 => 3
  end.

Record ITMOptions : Type := mkITMOptions {
  TraceBusID : Z;
  GlobalTimestampFrequency : ITMGlobalTimestampFrequency;
  LocalTimestampPrescaler : ITMLocalTimestampPrescaler;
  EnableLocalTimestamp : bool;
  ForwardDWT : bool;
  EnableSyncPacket : bool;
  EnabledStimulusPorts : Z
}.

Definition ITM_ENABLE_STIMULUS_PORTS_ALL : Z := 0xFFFFFFFF.

Definition ITMSetup (P : platform) (options : ITMOptions) : M unit :=
  demcr <- read CoreDebug_DEMCR ;;
  write CoreDebug_DEMCR (Z.lor demcr (CoreDebug_DEMCR_TRCENA_Msk P)) ;;
  write ITM_LAR 0xC5ACCE55 ;;
  let tcr := 0 in
  x <- shl P (TraceBusID options) (ITM_TCR_TraceBusID_Pos P) ;;
  let tcr := Z.lor tcr (u32 x) in
  x <- shl P (ITMGlobalTimestampFrequency_int (GlobalTimestampFrequency options))
             (ITM_TCR_GTSFREQ_Pos P) ;;
  let tcr := Z.lor tcr (u32 x) in
  x <- shl P (ITMLocalTimestampPrescaler_int (LocalTimestampPrescaler options))
             (ITM_TCR_TSPrescale_Pos P) ;;
  let tcr := Z.lor tcr (u32 x) in
  x <- shl P (b2i (ForwardDWT options)) (ITM_TCR_DWTENA_Pos P) ;;
  let tcr := Z.lor tcr (u32 x) in
  x <- shl P (b2i (EnableSyncPacket options)) (ITM_TCR_SYNCENA_Pos P) ;;
  let tcr := Z.lor tcr (u32 x) in
  x <- shl P (b2i (EnableLocalTimestamp options)) (ITM_TCR_TSENA_Pos P) ;;
  let tcr := Z.lor tcr (u32 x) in
  let tcr := Z.lor tcr (ITM_TCR_ITMENA_Msk P) in
  write ITM_TCR tcr ;;
  write ITM_TER 0xFFFFFFFF.

(** The [&&] of C evaluates its right operand, and so the shift, only when
    the left one holds. *)
Definition ITMIsPortEnabled (P : platform) (port : Z) : M bool :=
  tcr <- read ITM_TCR ;;
  if negb (Z.land tcr (ITM_TCR_ITMENA_Msk P) =? 0) then
    ter <- read ITM_TER ;;
    bit <- shl P 1 port ;;
    ret (negb (Z.land ter (u32 bit) =? 0))
  else ret false.

Definition ITMWrite8 (P : platform) (fuel : nat) (port value : Z) : M unit :=
  enabled <- ITMIsPortEnabled P port ;;
  if negb enabled then ret tt
  else
    wait_port fuel port ;;
    write_port port W8 value.

Definition ITMWrite16 (P : platform) (fuel : nat) (port value : Z) : M unit :=
  enabled <- ITMIsPortEnabled P port ;;
  if negb enabled then ret tt
  else
    wait_port fuel port ;;
    write_port port W16 value.

Definition ITMWrite32 (P : platform) (fuel : nat) (port value : Z) : M unit :=
  enabled <- ITMIsPortEnabled P port ;;
  if negb enabled then ret tt
  else
    wait_port fuel port ;;
    write_port port W32 value.

(** The caller's buffer is the list of its bytes, and [buf8] the part of it
    from the current position on. *)
Fixpoint le_combine (bytes : list Z) : Z :=
  match bytes with
  | [] => 0
  | b :: rest => Z.lor b (Z.shiftl (le_combine rest) 8)
  end.

(** [memcpy(&v, buf8, n)] on the little-endian Cortex-M; reading past the
    end of the buffer is outside the C abstract machine. *)
Definition memcpy (n : nat) (buf8 : list Z) : M Z :=
  if (n <=? length buf8)%nat then ret (le_combine (firstn n buf8))
  else undefined.

(** [while(size >= 4) { ... }] *)
Fixpoint write_words (fuel : nat) (port : Z) (buf8 : list Z) (size : nat)
  : M (list Z * nat) :=
  match size with
  | S (S (S (S size'))) =>
      v <- memcpy 4 buf8 ;;
      wait_port fuel port ;;
      write_port port W32 v ;;
      write_words fuel port (skipn 4 buf8) size'
  | _ => ret (buf8, size)
  end.

(** [while(size >= 2) { ... }] *)
Fixpoint write_halfwords (fuel : nat) (port : Z) (buf8 : list Z) (size : nat)
  : M (list Z * nat) :=
  match size with
  | S (S size') =>
      v <- memcpy 2 buf8 ;;
      v <- memcpy 2 buf8 ;;
      wait_port fuel port ;;
      write_port port W16 v ;;
      write_halfwords fuel port (skipn 2 buf8) size'
  | _ => ret (buf8, size)
  end.

(** [while(size > 0) { ... }] *)
Fixpoint write_bytes (fuel : nat) (port : Z) (buf8 : list Z) (size : nat)
  : M unit :=
  match size with
  | S size' =>
      wait_port fuel port ;;
      v <- memcpy 1 buf8 ;;
      write_port port W8 v ;;
      write_bytes fuel port (skipn 1 buf8) size'
  | O => ret tt
  end.

Definition ITMWriteBuffer (P : platform) (fuel : nat) (port : Z)
  (buffer : list Z) (size : nat) : M unit :=
  enabled <- ITMIsPortEnabled P port ;;
  if negb enabled then ret tt
  else
    let buf8 := buffer in
    r <- write_words fuel port buf8 size ;;
    let '(buf8, size) := r in
    r <- write_halfwords fuel port buf8 size ;;
    let '(buf8, size) := r in
    write_bytes fuel port buf8 size.

(** ** dwt.h *)

Inductive DWTSyncTap : Type :=
| DWTSyncTapDisabled
| DWTSyncTap24
| DWTSyncTap26
| DWTSyncTap28.

Definition DWTSyncTap_int (t : DWTSyncTap) : Z :=
  match t with
  | DWTSyncTapDisabled => 0
  | DWTSyncTap24 => 1
  | DWTSyncTap26 => 2
  | DWTSyncTap28 => 3
  end.

Inductive DWTCycleTap : Type :=
| DWTCycleTap6
| DWTCycleTap10.

Definition DWTCycleTap_int (t : DWTCycleTap) : Z :=
  match t with
  | DWTCycleTap6 => 0
  | DWTCycleTap10 => 1
  end.

Record DWTOptions : Type := mkDWTOptions {
  FoldedInstructionCounterEvent : bool;
  LSUCounterEvent : bool;
  SleepCounterEvent : bool;
  ExceptionOverheadCounterEvent : bool;
  CPICounterEvent : bool;
  ExceptionTrace : bool;
  PCSampling : bool;
  SyncTap : DWTSyncTap;
  CycleTap : DWTCycleTap;
  SamplingPrescaler : Z
}.

Definition DWTSetup (P : platform) (options : DWTOptions) : M unit :=
  demcr <- read CoreDebug_DEMCR ;;
  write CoreDebug_DEMCR (Z.lor demcr (CoreDebug_DEMCR_TRCENA_Msk P)) ;;
  write DWT_LAR 0xC5ACCE55 ;;
  let ctrl := 0 in
  x <- shl P (b2i (FoldedInstructionCounterEvent options)) (DWT_CTRL_FOLDEVTENA_Pos P) ;;
  let ctrl := Z.lor ctrl (u32 x) in
  x <- shl P (b2i (LSUCounterEvent options)) (DWT_CTRL_LSUEVTENA_Pos P) ;;
  let ctrl := Z.lor ctrl (u32 x) in
  x <- shl P (b2i (SleepCounterEvent options)) (DWT_CTRL_SLEEPEVTENA_Pos P) ;;
  let ctrl := Z.lor ctrl (u32 x) in
  x <- shl P (b2i (ExceptionOverheadCounterEvent options)) (DWT_CTRL_EXCEVTENA_Pos P) ;;
  let ctrl := Z.lor ctrl (u32 x) in
  x <- shl P (b2i (CPICounterEvent options)) (DWT_CTRL_CPIEVTENA_Pos P) ;;
  let ctrl := Z.lor ctrl (u32 x) in
  x <- shl P (b2i (ExceptionTrace options)) (DWT_CTRL_EXCTRCENA_Pos P) ;;
  let ctrl := Z.lor ctrl (u32 x) in
  x <- shl P (b2i (PCSampling options)) (DWT_CTRL_PCSAMPLENA_Pos P) ;;
  let ctrl := Z.lor ctrl (u32 x) in
  x <- shl P (Z.land (DWTSyncTap_int (SyncTap options)) 3) (DWT_CTRL_SYNCTAP_Pos P) ;;
  let ctrl := Z.lor ctrl (u32 x) in
  x <- shl P (Z.land (DWTCycleTap_int (CycleTap options)) 3) (DWT_CTRL_CYCTAP_Pos P) ;;
  let ctrl := Z.lor ctrl (u32 x) in
  x <- shl P (SamplingPrescaler options - 1) (DWT_CTRL_POSTPRESET_Pos P) ;;
  let ctrl := Z.lor ctrl (u32 x) in
  let ctrl := Z.lor ctrl (DWT_CTRL_CYCCNTENA_Msk P) in
  write DWT_CTRL ctrl.

Definition DWTEnableComparator (P : platform)
  (comparator address ignoreBits : Z) (emitRange : bool) (function : Z) : M unit :=
  f <- shl P function (DWT_FUNCTION_FUNCTION_Pos P) ;;
  e <- shl P (b2i emitRange) (DWT_FUNCTION_EMITRANGE_Pos P) ;;
  let funcRaw := Z.lor (Z.land (u32 f) (DWT_FUNCTION_FUNCTION_Msk P)) (u32 e) in
  match comparator with
  | 0 =>
      write DWT_COMP0 address ;;
      write DWT_MASK0 ignoreBits ;;
      write DWT_FUNCTION0 funcRaw
  | 1 =>
      write DWT_COMP1 address ;;
      write DWT_MASK1 ignoreBits ;;
      write DWT_FUNCTION1 funcRaw
  | 2 =>
      write DWT_COMP2 address ;;
      write DWT_MASK2 ignoreBits ;;
      write DWT_FUNCTION2 funcRaw
  | 3 =>
      write DWT_COMP3 address ;;
      write DWT_MASK3 ignoreBits ;;
      write DWT_FUNCTION3 funcRaw
  | _ => ret tt
  end.

Definition DWTDisableComparator (comparator : Z) : M unit :=
  match comparator with
  | 0 => write DWT_FUNCTION0 0
  | 1 => write DWT_FUNCTION1 0
  | 2 => write DWT_FUNCTION2 0
  | 3 => write DWT_FUNCTION3 0
  | _ => ret tt
  end.

(** ** tpiu.h *)

Inductive TpiuProtocol : Type :=
| TpiuProtocolParallel
| TpiuProtocolSwoManchester
| TpiuProtocolSwoUart.

Definition TpiuProtocol_int (p : TpiuProtocol) : Z :=
  match p with
  | TpiuProtocolParallel => 0
  | TpiuProtocolSwoManchester => 1
  | TpiuProtocolSwoUart => 2
  end.

Record TpiuOptions : Type := mkTpiuOptions {
  Protocol : TpiuProtocol;
  FormattingEnabled : bool;
  SwoPrescaler : Z;
  TracePortWidth : Z
}.

Definition TpiuSetup (P : platform) (options : TpiuOptions) : M unit :=
  demcr <- read CoreDebug_DEMCR ;;
  write CoreDebug_DEMCR (Z.lor demcr (CoreDebug_DEMCR_TRCENA_Msk P)) ;;
  write TPI_ACPR (s32 (SwoPrescaler options - 1)) ;;
  write TPI_SPPR (TpiuProtocol_int (Protocol options)) ;;
  cspsr <- shl P 1 (TracePortWidth options - 1) ;;
  write TPI_CSPSR cspsr ;;
  if FormattingEnabled options then
    ffcr <- read TPI_FFCR ;;
    write TPI_FFCR (Z.lor ffcr (TPI_FFCR_EnFCont_Msk P))
  else
    ffcr <- read TPI_FFCR ;;
    write TPI_FFCR (Z.land ffcr (u32 (Z.lnot (TPI_FFCR_EnFCont_Msk P)))).

(** * Vocabulary of the statements *)

(** ** Stimulus ports *)

(** What the header documents for [ITMIsPortEnabled]: the ITM is enabled and
    so is the port. *)
Definition port_enabled (P : platform) (m : machine) (port : Z) : bool :=
  Z.testbit (regs m ITM_TCR) (ITM_TCR_ITMENA_Pos P)
  && Z.testbit (regs m ITM_TER) port.

(** A [uint8_t]. *)
Definition is_byte (b : Z) : Prop := 0 <= b < 2 ^ 8.

(** The ITM sends the payload of a stimulus packet least significant byte
    first. *)
Fixpoint le_split (n : nat) (v : Z) : list Z :=
  match n with
  | O => []
  | S n' => v mod 2 ^ 8 :: le_split n' (Z.shiftr v 8)
  end.

(** The bytes a write sends, in the order they are sent. *)
Definition payload (e : event) : list Z :=
  match e with
  | StimWrite _ w v => le_split (width_bytes w) v
  | RegWrite _ _ => []
  end.

(** The port and width of a stimulus write. *)
Definition stim_width (e : event) : option (Z * width) :=
  match e with
  | StimWrite port w _ => Some (port, w)
  | RegWrite _ _ => None
  end.

(** The packing the header documents: 32-bit writes first, then a 16-bit
    write, then an 8-bit write. *)
Definition chunk_widths (n : nat) : list width :=
  repeat W32 (n / 4)
  ++ (if (2 <=? n mod 4)%nat then [W16] else [])
  ++ (if Nat.odd n then [W8] else []).

(** The FIFO of a port is ready again and again. *)
Definition fair (status : nat -> Z) : Prop :=
  forall t : nat, exists t' : nat, (t <= t')%nat /\ status t' <> 0.

(** The machine after [n] status reads in all and the further writes [evs]. *)
Definition advance (n : nat) (evs : list event) (m : machine) : machine :=
  {| regs := regs m; writes := writes m ++ evs; fifo := fifo m; polls := n |}.

(** ** Control words built by or-ing shifted fields *)

(** A field of a control register: its position, its width in bits, and the
    value shifted into it. *)
Record field : Type := mkField { f_pos : Z; f_width : Z; f_value : Z }.

(** [value << pos], converted to [uint32_t]. *)
Definition encode (f : field) : Z := u32 (s32 (Z.shiftl (f_value f) (f_pos f))).

(** [w = 0; w |= f1; w |= f2; ...] *)
Definition word_of (fs : list field) : Z :=
  fold_left (fun w f => Z.lor w (encode f)) fs 0.

(** The field of [width] bits at [pos] of a word. *)
Definition extract (pos width w : Z) : Z :=
  Z.land (Z.shiftr w pos) (Z.ones width).

(** The field lies within the 32 bits of a register. *)
Definition placed (f : field) : bool :=
  (0 <=? f_pos f) && (0 <? f_width f) && (f_pos f + f_width f <=? 32).

(** Two fields share no bit. *)
Definition apart (f g : field) : bool :=
  (f_pos f + f_width f <=? f_pos g) || (f_pos g + f_width g <=? f_pos f).

Fixpoint disjoint (fs : list field) : bool :=
  match fs with
  | [] => true
  | f :: rest => forallb (apart f) rest && disjoint rest
  end.

(** Every field lies within the 32 bits and no two fields share a bit. *)
Definition layout_ok (fs : list field) : bool :=
  forallb placed fs && disjoint fs.

(** The value fits the width of its field. *)
Definition fits (f : field) : Prop := 0 <= f_value f < 2 ^ f_width f.

(** ** ITM *)

(** What [ITMSetup] or-s into [tcr], in the order of the source.  The widths
    are those of ARMv7-M [ITM_TCR]: the trace bus ID has seven bits, the two
    timestamp selectors two bits each. *)
Definition ITM_tcr_fields (C : cmsis) (o : ITMOptions) : list field :=
  [ mkField (ITM_TCR_TraceBusID_Pos C) 7 (TraceBusID o);
    mkField (ITM_TCR_GTSFREQ_Pos C) 2
      (ITMGlobalTimestampFrequency_int (GlobalTimestampFrequency o));
    mkField (ITM_TCR_TSPrescale_Pos C) 2
      (ITMLocalTimestampPrescaler_int (LocalTimestampPrescaler o));
    mkField (ITM_TCR_DWTENA_Pos C) 1 (b2i (ForwardDWT o));
    mkField (ITM_TCR_SYNCENA_Pos C) 1 (b2i (EnableSyncPacket o));
    mkField (ITM_TCR_TSENA_Pos C) 1 (b2i (EnableLocalTimestamp o));
    mkField (ITM_TCR_ITMENA_Pos C) 1 1 ].

(** The header places the fields of [ITM_TCR] within the register. *)
Definition ITM_TCR_layout_ok (C : cmsis) : bool :=
  forallb (fun f => in_word (f_pos f))
    (ITM_tcr_fields C (mkITMOptions 0 ITMGlobalTimestampFrequencyDisabled
                         ITMLocalTimestampPrescalerNoPrescaling
                         false false false 0)).

(** The machine after [ITMSetup]. *)
Definition after_ITMSetup (C : cmsis) (o : ITMOptions) (m : machine) : machine :=
  let demcr := u32 (Z.lor (regs m CoreDebug_DEMCR) (CoreDebug_DEMCR_TRCENA_Msk C)) in
  let tcr := u32 (word_of (ITM_tcr_fields C o)) in
  {| regs := upd ITM_TER 0xFFFFFFFF
               (upd ITM_TCR tcr
                  (upd ITM_LAR 0xC5ACCE55
                     (upd CoreDebug_DEMCR demcr (regs m))));
     writes := writes m ++ [RegWrite CoreDebug_DEMCR demcr;
                            RegWrite ITM_LAR 0xC5ACCE55;
                            RegWrite ITM_TCR tcr;
                            RegWrite ITM_TER 0xFFFFFFFF];
     fifo := fifo m;
     polls := polls m |}.

(** ** DWT *)

(** What [DWTSetup] or-s into [ctrl], in the order of the source: seven
    one-bit enables, the two tap selectors, the prescaler and the
    cycle-counter enable.  The widths are those of ARMv7-M [DWT_CTRL]:
    SYNCTAP two bits, CYCTAP one bit, POSTPRESET four bits. *)
Definition DWT_ctrl_fields (C : cmsis) (o : DWTOptions) : list field :=
  [ mkField (DWT_CTRL_FOLDEVTENA_Pos C) 1 (b2i (FoldedInstructionCounterEvent o));
    mkField (DWT_CTRL_LSUEVTENA_Pos C) 1 (b2i (LSUCounterEvent o));
    mkField (DWT_CTRL_SLEEPEVTENA_Pos C) 1 (b2i (SleepCounterEvent o));
    mkField (DWT_CTRL_EXCEVTENA_Pos C) 1 (b2i (ExceptionOverheadCounterEvent o));
    mkField (DWT_CTRL_CPIEVTENA_Pos C) 1 (b2i (CPICounterEvent o));
    mkField (DWT_CTRL_EXCTRCENA_Pos C) 1 (b2i (ExceptionTrace o));
    mkField (DWT_CTRL_PCSAMPLENA_Pos C) 1 (b2i (PCSampling o));
    mkField (DWT_CTRL_SYNCTAP_Pos C) 2 (Z.land (DWTSyncTap_int (SyncTap o)) 3);
    mkField (DWT_CTRL_CYCTAP_Pos C) 1 (Z.land (DWTCycleTap_int (CycleTap o)) 3);
    mkField (DWT_CTRL_POSTPRESET_Pos C) 4 (SamplingPrescaler o - 1);
    mkField (DWT_CTRL_CYCCNTENA_Pos C) 1 1 ].

(** The word [DWTSetup] writes to [DWT->CTRL]. *)
Definition DWT_ctrl_word (C : cmsis) (o : DWTOptions) : Z :=
  u32 (word_of (DWT_ctrl_fields C o)).

(** Every event off, prescaler 1. *)
Definition no_events : DWTOptions :=
  {| FoldedInstructionCounterEvent := false;
     LSUCounterEvent := false;
     SleepCounterEvent := false;
     ExceptionOverheadCounterEvent := false;
     CPICounterEvent := false;
     ExceptionTrace := false;
     PCSampling := false;
     SyncTap := DWTSyncTapDisabled;
     CycleTap := DWTCycleTap6;
     SamplingPrescaler := 1 |}.

(** The header places the fields of [DWT_CTRL] within the register and
    apart from one another. *)
Definition DWT_CTRL_layout_ok (C : cmsis) : bool :=
  layout_ok (DWT_ctrl_fields C no_events).

(** The machine after [DWTSetup]. *)
Definition after_DWTSetup (C : cmsis) (o : DWTOptions) (m : machine) : machine :=
  let demcr := u32 (Z.lor (regs m CoreDebug_DEMCR) (CoreDebug_DEMCR_TRCENA_Msk C)) in
  {| regs := upd DWT_CTRL (DWT_ctrl_word C o)
               (upd DWT_LAR 0xC5ACCE55
                  (upd CoreDebug_DEMCR demcr (regs m)));
     writes := writes m ++ [RegWrite CoreDebug_DEMCR demcr;
                            RegWrite DWT_LAR 0xC5ACCE55;
                            RegWrite DWT_CTRL (DWT_ctrl_word C o)];
     fifo := fifo m;
     polls := polls m |}.

(** The three registers of comparator [i], for [i] in [0,3]. *)
Definition DWT_COMP (i : Z) : reg :=
  match i with 0 => DWT_COMP0 | 1 => DWT_COMP1 | 2 => DWT_COMP2 | _ => DWT_COMP3 end.
Definition DWT_MASK (i : Z) : reg :=
  match i with 0 => DWT_MASK0 | 1 => DWT_MASK1 | 2 => DWT_MASK2 | _ => DWT_MASK3 end.
Definition DWT_FUNCTION (i : Z) : reg :=
  match i with
  | 0 => DWT_FUNCTION0 | 1 => DWT_FUNCTION1 | 2 => DWT_FUNCTION2 | _ => DWT_FUNCTION3
  end.

(** The shifts of [DWTEnableComparator] stay within the word. *)
Definition DWT_FUNCTION_layout_ok (C : cmsis) : bool :=
  in_word (DWT_FUNCTION_FUNCTION_Pos C) && in_word (DWT_FUNCTION_EMITRANGE_Pos C).

(** [funcRaw] of [DWTEnableComparator]. *)
Definition funcRaw (C : cmsis) (emitRange : bool) (function : Z) : Z :=
  Z.lor (Z.land (u32 (s32 (Z.shiftl function (DWT_FUNCTION_FUNCTION_Pos C))))
           (DWT_FUNCTION_FUNCTION_Msk C))
        (u32 (s32 (Z.shiftl (b2i emitRange) (DWT_FUNCTION_EMITRANGE_Pos C)))).

(** ** TPIU *)

(** The machine after [TpiuSetup]. *)
Definition after_TpiuSetup (C : cmsis) (o : TpiuOptions) (m : machine) : machine :=
  let demcr := u32 (Z.lor (regs m CoreDebug_DEMCR) (CoreDebug_DEMCR_TRCENA_Msk C)) in
  let acpr := u32 (s32 (SwoPrescaler o - 1)) in
  let sppr := u32 (TpiuProtocol_int (Protocol o)) in
  let cspsr := u32 (s32 (Z.shiftl 1 (TracePortWidth o - 1))) in
  let ffcr :=
    if FormattingEnabled o
    then u32 (Z.lor (regs m TPI_FFCR) (TPI_FFCR_EnFCont_Msk C))
    else u32 (Z.land (regs m TPI_FFCR) (u32 (Z.lnot (TPI_FFCR_EnFCont_Msk C)))) in
  {| regs := upd TPI_FFCR ffcr
               (upd TPI_CSPSR cspsr
                  (upd TPI_SPPR sppr
                     (upd TPI_ACPR acpr
                        (upd CoreDebug_DEMCR demcr (regs m)))));
     writes := writes m ++ [RegWrite CoreDebug_DEMCR demcr;
                            RegWrite TPI_ACPR acpr;
                            RegWrite TPI_SPPR sppr;
                            RegWrite TPI_CSPSR cspsr;
                            RegWrite TPI_FFCR ffcr];
     fifo := fifo m;
     polls := polls m |}.

(** ** Machines and options used as examples *)

(** Every register 0 (so the ITM is disabled), FIFO always ready. *)
Definition idle_machine : machine :=
  {| regs := fun _ => 0; writes := []; fifo := fun _ _ => 1; polls := 0 |}.

(** ITM enabled, every stimulus port but port 5 enabled, FIFO always ready. *)
Definition port5_off : machine :=
  {| regs := upd ITM_TCR 1 (upd ITM_TER 0xFFFFFFDF (fun _ => 0));
     writes := [];
     fifo := fun _ _ => 1;
     polls := 0 |}.

(** ITM enabled with every port enabled; the FIFO is ready at every third
    status read. *)
Definition tracing : machine :=
  {| regs := upd ITM_TCR 1 (upd ITM_TER 0xFFFFFFFF (fun _ => 0));
     writes := [];
     fifo := fun _ t => if (t mod 3 =? 2)%nat then 1 else 0;
     polls := 0 |}.

(** [TPI->FFCR] holds [0x102], every other register 0. *)
Definition formatter_on : machine :=
  {| regs := upd TPI_FFCR 0x102 (fun _ => 0);
     writes := [];
     fifo := fun _ _ => 1;
     polls := 0 |}.

(** PC sampling with exception trace, sync tap 26, cycle tap 10,
    prescaler 16. *)
Definition pc_sampling : DWTOptions :=
  {| FoldedInstructionCounterEvent := false;
     LSUCounterEvent := false;
     SleepCounterEvent := false;
     ExceptionOverheadCounterEvent := false;
     CPICounterEvent := false;
     ExceptionTrace := true;
     PCSampling := true;
     SyncTap := DWTSyncTap26;
     CycleTap := DWTCycleTap10;
     SamplingPrescaler := 16 |}.

(** UART output at a sixteenth of the trace clock, one trace pin. *)
Definition swo_uart : TpiuOptions :=
  {| Protocol := TpiuProtocolSwoUart;
     FormattingEnabled := false;
     SwoPrescaler := 16;
     TracePortWidth := 1 |}.

(** A trace port width of 0. *)
Definition width_0 : TpiuOptions :=
  {| Protocol := TpiuProtocolParallel;
     FormattingEnabled := false;
     SwoPrescaler := 1;
     TracePortWidth := 0 |}.

(** Only stimulus port 0 requested. *)
Definition only_port_0 : ITMOptions :=
  {| TraceBusID := 1;
     GlobalTimestampFrequency := ITMGlobalTimestampFrequencyDisabled;
     LocalTimestampPrescaler := ITMLocalTimestampPrescalerNoPrescaling;
     EnableLocalTimestamp := false;
     ForwardDWT := false;
     EnableSyncPacket := false;
     EnabledStimulusPorts := 1 |}.

(** ** Vocabulary of the further properties *)

(** The header places the fields of [ITM_TCR] within the register and apart
    from one another. *)
Definition ITM_TCR_apart (C : cmsis) : bool :=
  layout_ok
    (ITM_tcr_fields C (mkITMOptions 0 ITMGlobalTimestampFrequencyDisabled
                         ITMLocalTimestampPrescalerNoPrescaling
                         false false false 0)).

(** The two fields of the function word of a comparator: the function code,
    cut to the four bits of [DWT_FUNCTION_FUNCTION_Msk], and the emit-range
    bit. *)
Definition DWT_FUNCTION_fields (C : cmsis) (emitRange : bool) (function : Z)
  : list field :=
  [ mkField (DWT_FUNCTION_FUNCTION_Pos C) 4 (function mod 2 ^ 4);
    mkField (DWT_FUNCTION_EMITRANGE_Pos C) 1 (b2i emitRange) ].

Definition DWT_FUNCTION_apart (C : cmsis) : bool :=
  layout_ok (DWT_FUNCTION_fields C false 0).

(** The fields of [DWT_CTRL] as [DWTSetup] fills them when the prescaler is
    any [uint8_t] but 0: the prescaler minus one then takes up to eight bits
    from [DWT_CTRL_POSTPRESET_Pos] on. *)
Definition DWT_ctrl_fields_wide (C : cmsis) (o : DWTOptions) : list field :=
  [ mkField (DWT_CTRL_FOLDEVTENA_Pos C) 1 (b2i (FoldedInstructionCounterEvent o));
    mkField (DWT_CTRL_LSUEVTENA_Pos C) 1 (b2i (LSUCounterEvent o));
    mkField (DWT_CTRL_SLEEPEVTENA_Pos C) 1 (b2i (SleepCounterEvent o));
    mkField (DWT_CTRL_EXCEVTENA_Pos C) 1 (b2i (ExceptionOverheadCounterEvent o));
    mkField (DWT_CTRL_CPIEVTENA_Pos C) 1 (b2i (CPICounterEvent o));
    mkField (DWT_CTRL_EXCTRCENA_Pos C) 1 (b2i (ExceptionTrace o));
    mkField (DWT_CTRL_PCSAMPLENA_Pos C) 1 (b2i (PCSampling o));
    mkField (DWT_CTRL_SYNCTAP_Pos C) 2 (Z.land (DWTSyncTap_int (SyncTap o)) 3);
    mkField (DWT_CTRL_CYCTAP_Pos C) 1 (Z.land (DWTCycleTap_int (CycleTap o)) 3);
    mkField (DWT_CTRL_POSTPRESET_Pos C) 8 (SamplingPrescaler o - 1);
    mkField (DWT_CTRL_CYCCNTENA_Pos C) 1 1 ].

(** The eight bits from [DWT_CTRL_POSTPRESET_Pos] on hold no other field
    that [DWTSetup] writes. *)
Definition DWT_CTRL_wide_ok (C : cmsis) : bool :=
  layout_ok (DWT_ctrl_fields_wide C no_events).

(** PC sampling with a prescaler of 200, outside the documented range. *)
Definition prescaler_200 : DWTOptions :=
  {| FoldedInstructionCounterEvent := true;
     LSUCounterEvent := false;
     SleepCounterEvent := false;
     ExceptionOverheadCounterEvent := false;
     CPICounterEvent := false;
     ExceptionTrace := false;
     PCSampling := true;
     SyncTap := DWTSyncTap24;
     CycleTap := DWTCycleTap6;
     SamplingPrescaler := 200 |}.

(** No event, and a prescaler of 0. *)
Definition prescaler_0 : DWTOptions :=
  {| FoldedInstructionCounterEvent := false;
     LSUCounterEvent := false;
     SleepCounterEvent := false;
     ExceptionOverheadCounterEvent := false;
     CPICounterEvent := false;
     ExceptionTrace := false;
     PCSampling := false;
     SyncTap := DWTSyncTapDisabled;
     CycleTap := DWTCycleTap6;
     SamplingPrescaler := 0 |}.

(** The registers a setup function writes. *)
Definition ITMSetup_regs : list reg := [CoreDebug_DEMCR; ITM_LAR; ITM_TCR; ITM_TER].
Definition DWTSetup_regs : list reg := [CoreDebug_DEMCR; DWT_LAR; DWT_CTRL].
Definition TpiuSetup_regs : list reg :=
  [CoreDebug_DEMCR; TPI_ACPR; TPI_SPPR; TPI_CSPSR; TPI_FFCR].

(** From [m] to [m'] the trace-enable bit of [CoreDebug->DEMCR] has been
    set and the other bits of that register kept. *)
Definition TRCENA_set (C : cmsis) (m m' : machine) : Prop :=
  Z.testbit (regs m' CoreDebug_DEMCR) (CoreDebug_DEMCR_TRCENA_Pos C) = true
  /\ forall i : Z,
       0 <= i < 32 -> i <> CoreDebug_DEMCR_TRCENA_Pos C ->
       Z.testbit (regs m' CoreDebug_DEMCR) i
       = Z.testbit (regs m CoreDebug_DEMCR) i.

(** The scalar write of a width: [ITMWrite8], [ITMWrite16] or [ITMWrite32]. *)
Definition ITMWrite (w : width) : platform -> nat -> Z -> Z -> M unit :=
  match w with
  | W8 => ITMWrite8
  | W16 => ITMWrite16
  | W32 => ITMWrite32
  end.

(** The status reads of [port] from the [from]-th on find the FIFO busy up
    to the [upto]-th, which finds it ready. *)
Definition first_ready (m : machine) (port : Z) (from upto : nat) : Prop :=
  (from <= upto)%nat
  /\ fifo m port upto <> 0
  /\ forall t : nat, (from <= t < upto)%nat -> fifo m port t = 0.

(** ITM enabled with every port enabled, but a FIFO that is never ready. *)
Definition stalled : machine :=
  {| regs := upd ITM_TCR 1 (upd ITM_TER 0xFFFFFFFF (fun _ => 0));
     writes := [];
     fifo := fun _ _ => 0;
     polls := 0 |}.

(** Local timestamps divided by 4, DWT packets forwarded, trace bus ID 3. *)
Definition forward_dwt : ITMOptions :=
  {| TraceBusID := 3;
     GlobalTimestampFrequency := ITMGlobalTimestampFrequencyPosition13;
     LocalTimestampPrescaler := ITMLocalTimestampPrescalerDivideBy4;
     EnableLocalTimestamp := true;
     ForwardDWT := true;
     EnableSyncPacket := false;
     EnabledStimulusPorts := ITM_ENABLE_STIMULUS_PORTS_ALL |}.

(** Four-pin parallel trace with formatting. *)
Definition parallel_4 : TpiuOptions :=
  {| Protocol := TpiuProtocolParallel;
     FormattingEnabled := true;
     SwoPrescaler := 1;
     TracePortWidth := 4 |}.

(** * Properties *)

(** ** Integers and bits *)

Lemma u32_s32 (z : Z) : u32 (s32 z) = u32 z.
Proof.
  unfold u32, s32.
  rewrite Zminus_mod, Zmod_mod, <- Zminus_mod.
  replace (z + 2 ^ 31 - 2 ^ 31) with z by lia. reflexivity.
Qed.

Lemma u32_testbit (z i : Z) :
  Z.testbit (u32 z) i = (i <? 32) && Z.testbit z i.
Proof.
  unfold u32. destruct (Z.ltb_spec i 32).
  - destruct (Z.ltb_spec i 0).
    + now rewrite !Z.testbit_neg_r.
    + now rewrite Z.mod_pow2_bits_low by lia.
  - now rewrite Z.mod_pow2_bits_high by lia.
Qed.

Lemma u32_small (z : Z) : 0 <= z < 2 ^ 32 -> u32 z = z.
Proof. intros H. unfold u32. now apply Z.mod_small. Qed.

Lemma u32_range (z : Z) : 0 <= u32 z < 2 ^ 32.
Proof. unfold u32. apply Z.mod_pos_bound. lia. Qed.

Lemma testbit_one (k : Z) : Z.testbit 1 k = (k =? 0).
Proof. now destruct k as [|p|p]; [|destruct p|]. Qed.

Lemma land_bit_test (a n : Z) :
  0 <= n -> negb (Z.land a (Z.shiftl 1 n) =? 0) = Z.testbit a n.
Proof.
  intros Hn. destruct (Z.testbit a n) eqn:E.
  - destruct (Z.eqb_spec (Z.land a (Z.shiftl 1 n)) 0) as [H|H]; [|reflexivity].
    assert (B : Z.testbit (Z.land a (Z.shiftl 1 n)) n = true).
    { rewrite Z.land_spec, Z.shiftl_spec, Z.sub_diag, E by lia. reflexivity. }
    rewrite H, Z.bits_0 in B. discriminate.
  - assert (H : Z.land a (Z.shiftl 1 n) = 0).
    { apply Z.bits_inj'. intros i Hi.
      rewrite Z.land_spec, Z.shiftl_spec, testbit_one, Z.bits_0 by lia.
      destruct (Z.eqb_spec (i - n) 0) as [H|H].
      - replace i with n by lia. now rewrite E.
      - apply andb_false_r. }
    now rewrite H.
Qed.

Lemma in_word_spec (n : Z) : in_word n = true <-> 0 <= n < 32.
Proof. unfold in_word. rewrite andb_true_iff, Z.leb_le, Z.ltb_lt. tauto. Qed.

Lemma in_word_false (n : Z) : in_word n = false <-> n < 0 \/ 32 <= n.
Proof.
  unfold in_word. rewrite andb_false_iff, Z.leb_gt, Z.ltb_ge. tauto.
Qed.

Lemma shl_in_word (P : platform) (a n : Z) (m : machine) :
  0 <= n < 32 -> shl P a n m = Done (s32 (Z.shiftl a n)) m.
Proof.
  intros H. unfold shl. apply in_word_spec in H. now rewrite H.
Qed.

Lemma u32_one_hot (n : Z) : 0 <= n < 32 -> u32 (s32 (Z.shiftl 1 n)) = Z.shiftl 1 n.
Proof.
  intros H. rewrite u32_s32. apply u32_small.
  rewrite Z.shiftl_1_l. split.
  - apply Z.pow_nonneg. lia.
  - apply Z.pow_lt_mono_r; lia.
Qed.

(** ** The port-enable test *)

Lemma ITMIsPortEnabled_in_word (P : platform) (port : Z) (m : machine) :
  0 <= ITM_TCR_ITMENA_Pos P ->
  0 <= port < 32 ->
  ITMIsPortEnabled P port m = Done (port_enabled P m port) m.
Proof.
  intros HP Hport. unfold ITMIsPortEnabled, port_enabled, bind, read.
  unfold ITM_TCR_ITMENA_Msk. rewrite land_bit_test by assumption.
  destruct (Z.testbit (regs m ITM_TCR) (ITM_TCR_ITMENA_Pos P)); cbn [andb].
  - rewrite shl_in_word by assumption. unfold ret.
    rewrite u32_one_hot by assumption.
    rewrite land_bit_test by lia. reflexivity.
  - reflexivity.
Qed.

(** C2. For a port in [0,31] and any contents of the control register and of
    the port-enable register, [ITMIsPortEnabled] returns true exactly when
    the ITM-enable bit of [ITM->TCR] and bit [port] of [ITM->TER] are both
    set; it leaves the machine (registers and write trace) as it found it,
    and its result depends on nothing but these two bits. *)
Theorem ITMIsPortEnabled_spec (P : platform) (port : Z) (m : machine) :
  0 <= ITM_TCR_ITMENA_Pos P < 32 ->
  0 <= port <= 31 ->
  exists b : bool,
    ITMIsPortEnabled P port m = Done b m
    /\ (b = true <->
        Z.testbit (regs m ITM_TCR) (ITM_TCR_ITMENA_Pos P) = true
        /\ Z.testbit (regs m ITM_TER) port = true)
    /\ forall m' : machine,
        Z.testbit (regs m' ITM_TCR) (ITM_TCR_ITMENA_Pos P)
          = Z.testbit (regs m ITM_TCR) (ITM_TCR_ITMENA_Pos P) ->
        Z.testbit (regs m' ITM_TER) port = Z.testbit (regs m ITM_TER) port ->
        ITMIsPortEnabled P port m' = Done b m'.
Proof.
  intros HP Hport. exists (port_enabled P m port). split; [|split].
  - apply ITMIsPortEnabled_in_word; lia.
  - unfold port_enabled. now rewrite andb_true_iff.
  - intros m' H1 H2. rewrite ITMIsPortEnabled_in_word by lia.
    unfold port_enabled. now rewrite H1, H2.
Qed.

(** Port 4 on a machine whose ITM is enabled and whose port 5 alone is
    disabled. *)
Lemma ITMIsPortEnabled_spec_witness :
  exists b : bool,
    ITMIsPortEnabled cm3 4 port5_off = Done b port5_off
    /\ (b = true <->
        Z.testbit (regs port5_off ITM_TCR) (ITM_TCR_ITMENA_Pos cm3) = true
        /\ Z.testbit (regs port5_off ITM_TER) 4 = true)
    /\ forall m' : machine,
        Z.testbit (regs m' ITM_TCR) (ITM_TCR_ITMENA_Pos cm3)
          = Z.testbit (regs port5_off ITM_TCR) (ITM_TCR_ITMENA_Pos cm3) ->
        Z.testbit (regs m' ITM_TER) 4 = Z.testbit (regs port5_off ITM_TER) 4 ->
        ITMIsPortEnabled cm3 4 m' = Done b m'.
Proof.
  apply (ITMIsPortEnabled_spec cm3 4 port5_off); cbn; lia.
Defined.

Lemma ITMIsPortEnabled_pure (P : platform) (port : Z) (m m' : machine) (b : bool) :
  ITMIsPortEnabled P port m = Done b m' -> m' = m.
Proof.
  unfold ITMIsPortEnabled, bind, read, shl, ret, undefined.
  destruct (negb _); [|congruence].
  destruct (in_word port); [congruence|].
  destruct (oversized_shift P); congruence.
Qed.

(** C10. For a port in [32,255] the test shifts [1] by 32 or more whenever
    the ITM is enabled: under the C standard the call then has no defined
    result, and on a target that reduces the shift amount modulo 32 it
    answers for port [port mod 32], so the port is reported enabled whenever
    that other port is.  Only when the ITM is disabled is the shift skipped
    and the answer false. *)
Theorem ITMIsPortEnabled_port_above_31 (C : cmsis) (port : Z) (m : machine) :
  0 <= ITM_TCR_ITMENA_Pos C < 32 ->
  32 <= port <= 255 ->
  ITMIsPortEnabled (mkPlatform C ShiftUndefined) port m
    = (if Z.testbit (regs m ITM_TCR) (ITM_TCR_ITMENA_Pos C)
       then Undefined else Done false m)
  /\ ITMIsPortEnabled (mkPlatform C ShiftModulo32) port m
    = Done (Z.testbit (regs m ITM_TCR) (ITM_TCR_ITMENA_Pos C)
            && Z.testbit (regs m ITM_TER) (port mod 32)) m
  /\ ITMIsPortEnabled (mkPlatform C ShiftModulo32) port m
    = ITMIsPortEnabled (mkPlatform C ShiftModulo32) (port mod 32) m.
Proof.
  intros HC Hport.
  assert (Hout : in_word port = false) by (apply in_word_false; lia).
  assert (Hmod : 0 <= port mod 32 < 32) by (apply Z.mod_pos_bound; lia).
  assert (E : ITMIsPortEnabled (mkPlatform C ShiftModulo32) port m
    = Done (Z.testbit (regs m ITM_TCR) (ITM_TCR_ITMENA_Pos C)
            && Z.testbit (regs m ITM_TER) (port mod 32)) m).
  { unfold ITMIsPortEnabled, bind, read, shl, ret. cbn [header oversized_shift].
    unfold ITM_TCR_ITMENA_Msk. rewrite land_bit_test by lia. rewrite Hout.
    destruct (Z.testbit (regs m ITM_TCR) (ITM_TCR_ITMENA_Pos C)); cbn [negb andb].
    - rewrite u32_one_hot by assumption. now rewrite land_bit_test by lia.
    - reflexivity. }
  split; [|split].
  - unfold ITMIsPortEnabled, bind, read, shl, ret, undefined.
    cbn [header oversized_shift].
    unfold ITM_TCR_ITMENA_Msk. rewrite land_bit_test by lia. rewrite Hout.
    now destruct (Z.testbit (regs m ITM_TCR) (ITM_TCR_ITMENA_Pos C)).
  - exact E.
  - rewrite E. symmetry.
    apply (ITMIsPortEnabled_in_word (mkPlatform C ShiftModulo32)); cbn; lia.
Qed.

(** Port 36 on a machine whose ITM is enabled and whose port 4 is enabled:
    undefined, or enabled like port 4. *)
Lemma ITMIsPortEnabled_port_above_31_witness :
  ITMIsPortEnabled cm3 36 port5_off = Undefined
  /\ ITMIsPortEnabled cm3_mod32 36 port5_off = Done true port5_off
  /\ ITMIsPortEnabled cm3_mod32 36 port5_off
     = ITMIsPortEnabled cm3_mod32 (36 mod 32) port5_off.
Proof.
  apply (ITMIsPortEnabled_port_above_31 core_cm3 36 port5_off); cbn; lia.
Defined.

(** ** Writes to a disabled port *)

(** C3. When [ITMIsPortEnabled port] is false on entry, [ITMWrite8],
    [ITMWrite16], [ITMWrite32] and [ITMWriteBuffer] return at once (whatever
    the fuel, so without waiting) with the machine they were given: no
    register is written, the port is neither read nor written, and no
    error is raised. *)
Theorem write_to_disabled_port (P : platform) (port : Z) (m : machine) :
  ITMIsPortEnabled P port m = Done false m ->
  forall (fuel : nat) (value : Z) (buffer : list Z) (size : nat),
    ITMWrite8 P fuel port value m = Done tt m
    /\ ITMWrite16 P fuel port value m = Done tt m
    /\ ITMWrite32 P fuel port value m = Done tt m
    /\ ITMWriteBuffer P fuel port buffer size m = Done tt m.
Proof.
  intros H fuel value buffer size.
  unfold ITMWrite8, ITMWrite16, ITMWrite32, ITMWriteBuffer, bind.
  rewrite H. cbn [negb]. repeat split; reflexivity.
Qed.

Lemma write_to_disabled_port_witness :
  ITMIsPortEnabled cm3 5 port5_off = Done false port5_off
  /\ ITMWrite8 cm3 0 5 88 port5_off = Done tt port5_off
  /\ ITMWrite16 cm3 0 5 88 port5_off = Done tt port5_off
  /\ ITMWrite32 cm3 0 5 88 port5_off = Done tt port5_off
  /\ ITMWriteBuffer cm3 0 5 [1; 2; 3] 3 port5_off = Done tt port5_off.
Proof.
  split; [reflexivity|].
  apply (write_to_disabled_port cm3 5 port5_off); reflexivity.
Defined.

(** ** Buffer writes *)

Lemma lor_shiftl_8 (b x : Z) :
  is_byte b -> 0 <= x -> Z.lor b (Z.shiftl x 8) = b + x * 2 ^ 8.
Proof.
  intros Hb Hx. rewrite Z.shiftl_mul_pow2 by lia.
  rewrite <- (Z.add_lor_land b (x * 2 ^ 8)).
  assert (E : Z.land b (x * 2 ^ 8) = 0).
  { apply Z.bits_inj'. intros i Hi. rewrite Z.land_spec, Z.bits_0.
    destruct (Z.ltb_spec i 8).
    - rewrite Z.mul_pow2_bits_low by lia. apply andb_false_r.
    - rewrite <- (Z.mod_small b (2 ^ 8)) by exact Hb.
      now rewrite Z.mod_pow2_bits_high by lia. }
  rewrite E. lia.
Qed.

Lemma le_combine_range (bs : list Z) :
  Forall is_byte bs -> 0 <= le_combine bs < 2 ^ (8 * Z.of_nat (length bs)).
Proof.
  induction 1 as [|b bs Hb _ IH].
  - cbn. lia.
  - cbn [le_combine length]. rewrite lor_shiftl_8 by (assumption || lia).
    replace (8 * Z.of_nat (S (length bs))) with (8 * Z.of_nat (length bs) + 8) by lia.
    rewrite Z.pow_add_r by lia. unfold is_byte in Hb. nia.
Qed.

Lemma le_split_combine (bs : list Z) :
  Forall is_byte bs -> le_split (length bs) (le_combine bs) = bs.
Proof.
  induction 1 as [|b bs Hb Hbs IH].
  - reflexivity.
  - pose proof (le_combine_range bs Hbs) as R.
    cbn [le_combine length le_split].
    rewrite lor_shiftl_8 by (assumption || lia).
    rewrite Z.shiftr_div_pow2 by lia.
    rewrite Z.mod_add, Z.div_add by lia.
    unfold is_byte in Hb.
    rewrite Z.mod_small, Z.div_small by lia.
    cbn [Z.add]. now rewrite IH.
Qed.

Lemma payload_chunk (port : Z) (w : width) (bs : list Z) :
  Forall is_byte bs ->
  length bs = width_bytes w ->
  payload (StimWrite port w (wrap_width w (le_combine bs))) = bs.
Proof.
  intros Hbs Hlen. pose proof (le_combine_range bs Hbs) as R.
  rewrite Hlen in R. cbn [payload].
  assert (E : wrap_width w (le_combine bs) = le_combine bs).
  { destruct w; cbn [wrap_width width_bytes] in *; unfold u8, u16, u32;
      apply Z.mod_small; exact R. }
  rewrite E, <- Hlen. now apply le_split_combine.
Qed.

Lemma advance_advance (n1 n2 : nat) (e1 e2 : list event) (m : machine) :
  advance n2 e2 (advance n1 e1 m) = advance n2 (e1 ++ e2) m.
Proof. unfold advance. cbn. now rewrite app_assoc. Qed.

Lemma advance_nil (m : machine) : advance (polls m) [] m = m.
Proof. destruct m. unfold advance. cbn. now rewrite app_nil_r. Qed.

Lemma mod4_step (s : nat) : (S (S (S (S s))) mod 4 = s mod 4)%nat.
Proof.
  replace (S (S (S (S s)))) with (s + 1 * 4)%nat by lia.
  apply Nat.Div0.mod_add.
Qed.

Lemma div4_step (s : nat) : (S (S (S (S s))) / 4 = S (s / 4))%nat.
Proof.
  replace (S (S (S (S s)))) with (s + 1 * 4)%nat by lia.
  rewrite Nat.div_add by lia. lia.
Qed.

Lemma bind_Done {A B : Type} (c : M A) (k : A -> M B) (m m' : machine) (b : B) :
  bind c k m = Done b m' ->
  exists (a : A) (m1 : machine), c m = Done a m1 /\ k a m1 = Done b m'.
Proof.
  unfold bind. destruct (c m) as [a m1| |]; try discriminate.
  intros H. now exists a, m1.
Qed.

(** The bytes of a buffer, split into its first bytes and the others. *)
Ltac bytes :=
  repeat match goal with
         | H : Forall is_byte (_ :: _) |- _ =>
             let Hb := fresh "Hb" in
             apply Forall_cons_iff in H as [Hb H]
         end;
  repeat first [assumption | apply Forall_cons | apply Forall_nil].

Section OnePort.

Variable port : Z.

(** *** What the loops have done when they end *)

(** A wait that ends has only read the status. *)
Lemma wait_port_Done (fuel : nat) :
  forall m m' : machine,
    wait_port fuel port m = Done tt m' -> exists n : nat, m' = advance n [] m.
Proof.
  induction fuel as [|fuel IH]; intros m m' H; [discriminate|].
  cbn [wait_port] in H. unfold bind at 1 in H.
  unfold read_port, bind, port_index in H.
  destruct (in_word port); [|discriminate]. cbn [ret] in H.
  destruct (fifo m port (polls m) =? 0).
  - apply IH in H as [n ->]. exists n.
    unfold advance. cbn. now rewrite app_nil_r.
  - injection H as <-. exists (S (polls m)).
    unfold advance. now rewrite app_nil_r.
Qed.

(** One chunk: wait for the FIFO, then write the port. *)
Lemma chunk_Done {A : Type} (fuel : nat) (w : width) (v : Z)
  (k : M A) (m m' : machine) (r : A) :
  (wait_port fuel port ;; write_port port w v ;; k) m = Done r m' ->
  exists n : nat,
    k (advance n [StimWrite port w (wrap_width w v)] m) = Done r m'.
Proof.
  intros H.
  apply bind_Done in H as ([] & m1 & Hwait & H).
  apply bind_Done in H as ([] & m2 & Hwrite & H).
  apply wait_port_Done in Hwait as [n ->]. exists n.
  unfold write_port, bind, port_index in Hwrite.
  destruct (in_word port); [|discriminate]. cbn [ret] in Hwrite.
  injection Hwrite as <-.
  unfold advance in *. cbn [regs writes fifo polls] in H.
  now rewrite app_nil_r in H.
Qed.

(** The first loop: one 32-bit write for every four bytes. *)
Lemma write_words_Done (fuel : nat) :
  forall (size : nat) (buf8 : list Z) (m m' : machine) (r : list Z * nat),
    length buf8 = size ->
    Forall is_byte buf8 ->
    write_words fuel port buf8 size m = Done r m' ->
    exists (n : nat) (evs : list event) (rest : list Z),
      r = (rest, (size mod 4)%nat)
      /\ m' = advance n evs m
      /\ length rest = (size mod 4)%nat
      /\ Forall is_byte rest
      /\ map stim_width evs = repeat (Some (port, W32)) (size / 4)
      /\ concat (map payload evs) ++ rest = buf8.
Proof.
  intros size. induction size as [size IH] using lt_wf_ind.
  intros buf8 m m' r Hlen Hbytes Hrun.
  destruct size as [|[|[|[|s]]]];
    try (injection Hrun as <- <-; exists (polls m), [], buf8;
         rewrite advance_nil; repeat split; assumption).
  destruct buf8 as [|b0 [|b1 [|b2 [|b3 tl]]]]; try discriminate.
  cbn [length] in Hlen.
  set (v := le_combine [b0; b1; b2; b3]).
  change (write_words fuel port (b0 :: b1 :: b2 :: b3 :: tl) (S (S (S (S s)))) m)
    with ((wait_port fuel port ;; write_port port W32 v ;;
           write_words fuel port tl s) m) in Hrun.
  apply chunk_Done in Hrun as [n0 Hrun].
  apply (IH s ltac:(lia) tl _ m' r) in Hrun
    as (n & evs & rest & -> & -> & Hrest & Hrb & Hw & Hcat); [|lia|bytes].
  exists n, (StimWrite port W32 (wrap_width W32 v) :: evs), rest.
  rewrite mod4_step, div4_step, advance_advance. repeat split; try assumption.
  - cbn [map repeat]. now rewrite Hw.
  - cbn [map concat]. unfold v. rewrite payload_chunk by first [reflexivity | bytes].
    cbn [app]. now rewrite Hcat.
Qed.

(** The second loop, on the fewer than four bytes the first one leaves. *)
Lemma write_halfwords_Done (fuel : nat) (rest : list Z)
  (m m' : machine) (r : list Z * nat) :
  (length rest < 4)%nat ->
  Forall is_byte rest ->
  write_halfwords fuel port rest (length rest) m = Done r m' ->
  exists (n : nat) (evs : list event) (rest' : list Z),
    r = (rest', length rest')
    /\ m' = advance n evs m
    /\ (length rest' < 2)%nat
    /\ Forall is_byte rest'
    /\ Nat.odd (length rest') = Nat.odd (length rest)
    /\ map stim_width evs
       = map (fun w => Some (port, w))
           (if (2 <=? length rest)%nat then [W16] else [])
    /\ concat (map payload evs) ++ rest' = rest.
Proof.
  intros Hlen Hbytes Hrun.
  destruct rest as [|b0 [|b1 tl]].
  - injection Hrun as <- <-. exists (polls m), [], [].
    rewrite advance_nil. cbn. repeat split; (assumption || lia).
  - injection Hrun as <- <-. exists (polls m), [], [b0].
    rewrite advance_nil. cbn. repeat split; (assumption || lia).
  - cbn [length] in Hlen.
    assert (Hsmall : (length tl < 2)%nat) by lia.
    change (write_halfwords fuel port (b0 :: b1 :: tl) (length (b0 :: b1 :: tl)) m)
      with ((wait_port fuel port ;;
             write_port port W16 (le_combine [b0; b1]) ;;
             write_halfwords fuel port tl (length tl)) m) in Hrun.
    apply chunk_Done in Hrun as [n Hrun].
    exists n, [StimWrite port W16 (wrap_width W16 (le_combine [b0; b1]))], tl.
    assert (Hr : r = (tl, length tl)
                 /\ m' = advance n [StimWrite port W16
                                      (wrap_width W16 (le_combine [b0; b1]))] m).
    { destruct tl as [|b2 [|b3 tl]]; cbn [length] in Hsmall; try lia;
        now injection Hrun as <- <-. }
    destruct Hr as [-> ->]. repeat split; try assumption.
    + bytes.
    + cbn [map concat]. rewrite payload_chunk by first [reflexivity | bytes].
      reflexivity.
Qed.

(** The third loop, on the at most one byte the second one leaves. *)
Lemma write_bytes_Done (fuel : nat) (rest : list Z) (m m' : machine) :
  (length rest < 2)%nat ->
  Forall is_byte rest ->
  write_bytes fuel port rest (length rest) m = Done tt m' ->
  exists (n : nat) (evs : list event),
    m' = advance n evs m
    /\ map stim_width evs
       = map (fun w => Some (port, w))
           (if Nat.odd (length rest) then [W8] else [])
    /\ concat (map payload evs) = rest.
Proof.
  intros Hlen Hbytes Hrun.
  destruct rest as [|b0 [|b1 tl]]; cbn [length] in Hlen; try lia.
  - injection Hrun as <-. exists (polls m), [].
    rewrite advance_nil. now repeat split.
  - change (write_bytes fuel port [b0] (length [b0]) m)
      with ((wait_port fuel port ;;
             write_port port W8 (le_combine [b0]) ;; ret tt) m) in Hrun.
    apply chunk_Done in Hrun as [n Hrun]. injection Hrun as <-.
    exists n, [StimWrite port W8 (wrap_width W8 (le_combine [b0]))].
    repeat split.
    cbn [map concat]. rewrite payload_chunk by first [reflexivity | bytes].
    reflexivity.
Qed.

(** *** That the loops end *)

Hypothesis port_ok : in_word port = true.

(** The busy-wait ends once the FIFO is ready. *)
Lemma wait_port_ready (d : nat) :
  forall m : machine,
    fifo m port (polls m + d)%nat <> 0 ->
    exists n : nat, forall fuel : nat,
      (d < fuel)%nat -> wait_port fuel port m = Done tt (advance n [] m).
Proof.
  induction d as [|d IH]; intros m Hready.
  - exists (S (polls m)). intros [|fuel] Hfuel; [lia|].
    cbn [wait_port]. unfold bind, read_port, port_index, bind. rewrite port_ok.
    cbn [ret]. rewrite Nat.add_0_r in Hready.
    apply Z.eqb_neq in Hready. rewrite Hready.
    unfold ret, advance. now rewrite app_nil_r.
  - destruct (Z.eqb_spec (fifo m port (polls m)) 0) as [Hbusy|Hnow].
    + destruct (IH (advance (S (polls m)) [] m)) as [n Hn].
      { cbn [advance fifo polls]. now rewrite Nat.add_succ_comm. }
      exists n. intros [|fuel] Hfuel; [lia|].
      cbn [wait_port]. unfold bind, read_port, port_index, bind. rewrite port_ok.
      cbn [ret]. rewrite Hbusy. cbn [Z.eqb].
      assert (E : {| regs := regs m; writes := writes m; fifo := fifo m;
                     polls := S (polls m) |} = advance (S (polls m)) [] m).
      { unfold advance. now rewrite app_nil_r. }
      rewrite E, Hn by lia.
      unfold advance. cbn. now rewrite !app_nil_r.
    + exists (S (polls m)). intros [|fuel] Hfuel; [lia|].
      cbn [wait_port]. unfold bind, read_port, port_index, bind. rewrite port_ok.
      cbn [ret]. apply Z.eqb_neq in Hnow. rewrite Hnow.
      unfold ret, advance. now rewrite app_nil_r.
Qed.

Lemma wait_port_fair (m : machine) :
  fair (fifo m port) ->
  exists (n fuel0 : nat), forall fuel : nat,
    (fuel0 <= fuel)%nat -> wait_port fuel port m = Done tt (advance n [] m).
Proof.
  intros Hfair. destruct (Hfair (polls m)) as (t' & Hle & Hready).
  destruct (wait_port_ready (t' - polls m) m) as [n Hn].
  { now replace (polls m + (t' - polls m))%nat with t' by lia. }
  exists n, (S (t' - polls m)). intros fuel Hfuel. apply Hn. lia.
Qed.

(** While the FIFO never becomes ready the wait never ends. *)
Lemma wait_port_blocked (fuel : nat) :
  forall m : machine,
    (forall t : nat, fifo m port t = 0) ->
    wait_port fuel port m = Spinning.
Proof.
  induction fuel as [|fuel IH]; intros m Hbusy.
  - reflexivity.
  - cbn [wait_port]. unfold bind, read_port, port_index, bind. rewrite port_ok.
    cbn [ret]. rewrite Hbusy. cbn [Z.eqb]. apply IH. exact Hbusy.
Qed.

Lemma wait_then_write (w : width) (v : Z) (m : machine) :
  fair (fifo m port) ->
  exists (n fuel0 : nat), forall (fuel : nat) (A : Type) (k : M A),
    (fuel0 <= fuel)%nat ->
    (wait_port fuel port ;; write_port port w v ;; k) m
    = k (advance n [StimWrite port w (wrap_width w v)] m).
Proof.
  intros Hfair.
  destruct (wait_port_fair m Hfair) as (n & fuel0 & Hwait).
  exists n, fuel0. intros fuel A k Hfuel.
  unfold bind at 1. rewrite (Hwait fuel Hfuel).
  unfold bind, write_port, port_index, bind. rewrite port_ok. cbn [ret].
  f_equal. unfold advance. cbn. now rewrite app_nil_r.
Qed.

Lemma write_words_returns :
  forall (size : nat) (buf8 : list Z) (m : machine),
    length buf8 = size ->
    fair (fifo m port) ->
    exists (fuel0 : nat) (r : list Z * nat) (m' : machine),
      forall fuel : nat, (fuel0 <= fuel)%nat ->
        write_words fuel port buf8 size m = Done r m'.
Proof.
  intros size. induction size as [size IH] using lt_wf_ind.
  intros buf8 m Hlen Hfair.
  destruct size as [|[|[|[|s]]]];
    try (exists 0%nat, (buf8, length buf8), m; intros fuel _; now rewrite Hlen).
  destruct buf8 as [|b0 [|b1 [|b2 [|b3 tl]]]]; try discriminate.
  cbn [length] in Hlen.
  set (v := le_combine [b0; b1; b2; b3]).
  destruct (wait_then_write W32 v m Hfair) as (n0 & fuel0 & Hchunk).
  set (m1 := advance n0 [StimWrite port W32 (wrap_width W32 v)] m) in *.
  destruct (IH s ltac:(lia) tl m1 ltac:(lia) Hfair) as (fuel1 & r & m' & Hrun).
  exists (Nat.max fuel0 fuel1), r, m'. intros fuel Hfuel.
  change (write_words fuel port (b0 :: b1 :: b2 :: b3 :: tl) (S (S (S (S s)))) m)
    with ((wait_port fuel port ;; write_port port W32 v ;;
           write_words fuel port tl s) m).
  rewrite Hchunk by lia. apply Hrun. lia.
Qed.

Lemma write_halfwords_returns (rest : list Z) (m : machine) :
  (length rest < 4)%nat ->
  fair (fifo m port) ->
  exists (fuel0 : nat) (r : list Z * nat) (m' : machine),
    forall fuel : nat, (fuel0 <= fuel)%nat ->
      write_halfwords fuel port rest (length rest) m = Done r m'.
Proof.
  intros Hlen Hfair.
  destruct rest as [|b0 [|b1 tl]].
  - now exists 0%nat, ([], 0%nat), m.
  - now exists 0%nat, ([b0], 1%nat), m.
  - destruct (wait_then_write W16 (le_combine [b0; b1]) m Hfair)
      as (n & fuel0 & Hchunk).
    eexists fuel0, (tl, length tl), _. intros fuel Hfuel.
    change (write_halfwords fuel port (b0 :: b1 :: tl) (length (b0 :: b1 :: tl)) m)
      with ((wait_port fuel port ;;
             write_port port W16 (le_combine [b0; b1]) ;;
             write_halfwords fuel port tl (length tl)) m).
    rewrite Hchunk by assumption.
    cbn [length] in Hlen.
    destruct tl as [|b2 [|b3 tl]]; cbn [length] in Hlen; try lia; reflexivity.
Qed.

Lemma write_bytes_returns (rest : list Z) (m : machine) :
  (length rest < 2)%nat ->
  fair (fifo m port) ->
  exists (fuel0 : nat) (m' : machine),
    forall fuel : nat, (fuel0 <= fuel)%nat ->
      write_bytes fuel port rest (length rest) m = Done tt m'.
Proof.
  intros Hlen Hfair.
  destruct rest as [|b0 [|b1 tl]]; cbn [length] in Hlen; try lia.
  - now exists 0%nat, m.
  - destruct (wait_then_write W8 (le_combine [b0]) m Hfair)
      as (n & fuel0 & Hchunk).
    eexists fuel0, _. intros fuel Hfuel.
    change (write_bytes fuel port [b0] (length [b0]) m)
      with ((wait_port fuel port ;;
             write_port port W8 (le_combine [b0]) ;; ret tt) m).
    rewrite Hchunk by assumption. reflexivity.
Qed.

End OnePort.

Lemma odd_mod4 (n : nat) : Nat.odd (n mod 4) = Nat.odd n.
Proof.
  rewrite (Nat.div_mod_eq n 4) at 2.
  rewrite Nat.odd_add, Nat.odd_mul. reflexivity.
Qed.

(** What a call of [ITMWriteBuffer] on an enabled port has done when it
    returns. *)
Lemma ITMWriteBuffer_Done (P : platform) (fuel : nat) (port : Z)
  (buffer : list Z) (m m' : machine) :
  ITMIsPortEnabled P port m = Done true m ->
  Forall is_byte buffer ->
  ITMWriteBuffer P fuel port buffer (length buffer) m = Done tt m' ->
  exists (n : nat) (chunks : list event),
    m' = advance n chunks m
    /\ map stim_width chunks
       = map (fun w => Some (port, w)) (chunk_widths (length buffer))
    /\ concat (map payload chunks) = buffer.
Proof.
  intros Henabled Hbytes Hrun.
  unfold ITMWriteBuffer in Hrun. unfold bind at 1 in Hrun.
  rewrite Henabled in Hrun. cbn [negb] in Hrun.
  apply bind_Done in Hrun as (r1 & m1 & Hrun1 & Hrun).
  apply write_words_Done in Hrun1
    as (n1 & evs1 & rest1 & -> & -> & Hlen1 & Hb1 & Hw1 & Hcat1); auto.
  assert (Hlt : (length rest1 < 4)%nat).
  { rewrite Hlen1. apply Nat.mod_upper_bound. lia. }
  rewrite <- Hlen1 in Hrun.
  apply bind_Done in Hrun as (r2 & m2 & Hrun2 & Hrun).
  apply write_halfwords_Done in Hrun2
    as (n2 & evs2 & rest2 & -> & -> & Hlen2 & Hb2 & Hodd2 & Hw2 & Hcat2); auto.
  apply write_bytes_Done in Hrun as (n3 & evs3 & -> & Hw3 & Hcat3); auto.
  exists n3, (evs1 ++ evs2 ++ evs3). split; [|split].
  - now rewrite !advance_advance.
  - unfold chunk_widths. rewrite !map_app, Hw1, Hw2, Hw3, map_repeat.
    now rewrite Hodd2, Hlen1, odd_mod4.
  - rewrite !map_app, !concat_app. now rewrite Hcat3, Hcat2, Hcat1.
Qed.

Lemma ITMWriteBuffer_returns (P : platform) (port : Z) (buffer : list Z)
  (m : machine) :
  ITMIsPortEnabled P port m = Done true m ->
  in_word port = true ->
  Forall is_byte buffer ->
  fair (fifo m port) ->
  exists (fuel0 : nat) (m' : machine),
    forall fuel : nat, (fuel0 <= fuel)%nat ->
      ITMWriteBuffer P fuel port buffer (length buffer) m = Done tt m'.
Proof.
  intros Henabled Hport Hbytes Hfair.
  destruct (write_words_returns port Hport (length buffer) buffer m eq_refl Hfair)
    as (f1 & r1 & m1 & Hrun1).
  destruct (write_words_Done port f1 _ _ _ _ _ eq_refl Hbytes (Hrun1 f1 (le_n f1)))
    as (n1 & evs1 & rest1 & -> & -> & Hlen1 & Hb1 & _).
  assert (Hlt : (length rest1 < 4)%nat).
  { rewrite Hlen1. apply Nat.mod_upper_bound. lia. }
  set (m1 := advance n1 evs1 m) in *.
  destruct (write_halfwords_returns port Hport rest1 m1 Hlt Hfair)
    as (f2 & r2 & m2 & Hrun2).
  destruct (write_halfwords_Done port f2 _ _ _ _ Hlt Hb1 (Hrun2 f2 (le_n f2)))
    as (n2 & evs2 & rest2 & -> & -> & Hlen2 & Hb2 & _).
  set (m2 := advance n2 evs2 m1) in *.
  destruct (write_bytes_returns port Hport rest2 m2 Hlen2 Hfair)
    as (f3 & m3 & Hrun3).
  exists (Nat.max f1 (Nat.max f2 f3)), m3. intros fuel Hfuel.
  unfold ITMWriteBuffer, bind. rewrite Henabled. cbn [negb].
  rewrite Hrun1 by lia. rewrite <- Hlen1.
  rewrite Hrun2 by lia. apply Hrun3. lia.
Qed.

(** C4. On an enabled port, a call of [ITMWriteBuffer] that returns has
    written the port [n / 4] times as a 32-bit word, then once as a 16-bit
    word if [n mod 4 >= 2], then once as a byte if [n] is odd, and has
    written nothing else; the payloads of these writes, in order, are the
    buffer.  The call does return, given enough fuel for its waits, when the
    FIFO of the port keeps becoming ready.  For 7 bytes the widths are
    32, 16, 8; for 0 bytes the call returns at once with the machine it was
    given. *)
Theorem ITMWriteBuffer_chunks (P : platform) (port : Z) (buffer : list Z) (m : machine) :
  ITMIsPortEnabled P port m = Done true m ->
  0 <= port < 32 ->
  Forall is_byte buffer ->
  (forall (fuel : nat) (m' : machine),
     ITMWriteBuffer P fuel port buffer (length buffer) m = Done tt m' ->
     exists chunks : list event,
       writes m' = writes m ++ chunks
       /\ regs m' = regs m
       /\ map stim_width chunks
          = map (fun w => Some (port, w)) (chunk_widths (length buffer))
       /\ concat (map payload chunks) = buffer)
  /\ (fair (fifo m port) ->
      exists (fuel0 : nat) (m' : machine),
        forall fuel : nat, (fuel0 <= fuel)%nat ->
          ITMWriteBuffer P fuel port buffer (length buffer) m = Done tt m')
  /\ chunk_widths 7 = [W32; W16; W8]
  /\ (forall fuel : nat, ITMWriteBuffer P fuel port [] 0 m = Done tt m).
Proof.
  intros Henabled Hport Hbytes.
  split; [|split; [|split; [reflexivity|]]].
  3: { intros fuel. unfold ITMWriteBuffer, bind. now rewrite Henabled. }
  - intros fuel m' Hrun.
    destruct (ITMWriteBuffer_Done P fuel port buffer m m' Henabled Hbytes Hrun)
      as (n & chunks & -> & Hw & Hcat).
    exists chunks. now repeat split.
  - intros Hfair. apply ITMWriteBuffer_returns; auto.
    now apply in_word_spec.
Qed.

Lemma tracing_fair (port : Z) : fair (fifo tracing port).
Proof.
  intros t. exists (3 * t + 2)%nat. split; [lia|].
  cbn [tracing fifo].
  replace (3 * t + 2)%nat with (2 + t * 3)%nat by lia.
  rewrite Nat.Div0.mod_add. cbn. discriminate.
Qed.

Lemma bytes_1_to_7 : Forall is_byte [1; 2; 3; 4; 5; 6; 7].
Proof. repeat (apply Forall_cons; [unfold is_byte; lia|]). apply Forall_nil. Qed.

Lemma ITMWriteBuffer_chunks_witness :
  ITMIsPortEnabled cm3 4 tracing = Done true tracing
  /\ (forall (fuel : nat) (m' : machine),
        ITMWriteBuffer cm3 fuel 4 [1; 2; 3; 4; 5; 6; 7] 7 tracing = Done tt m' ->
        exists chunks : list event,
          writes m' = writes tracing ++ chunks
          /\ regs m' = regs tracing
          /\ map stim_width chunks = [Some (4, W32); Some (4, W16); Some (4, W8)]
          /\ concat (map payload chunks) = [1; 2; 3; 4; 5; 6; 7])
  /\ (exists (fuel0 : nat) (m' : machine),
        forall fuel : nat, (fuel0 <= fuel)%nat ->
          ITMWriteBuffer cm3 fuel 4 [1; 2; 3; 4; 5; 6; 7] 7 tracing = Done tt m').
Proof.
  assert (Henabled : ITMIsPortEnabled cm3 4 tracing = Done true tracing)
    by reflexivity.
  assert (Hport : 0 <= 4 < 32) by lia.
  destruct (ITMWriteBuffer_chunks cm3 4 [1; 2; 3; 4; 5; 6; 7] tracing
              Henabled Hport bytes_1_to_7) as (Hdone & Hreturns & _).
  split; [exact Henabled|]. split; [exact Hdone|].
  exact (Hreturns (tracing_fair 4)).
Defined.

(** The same call with fuel 3: three status reads for each chunk. *)
Example ITMWriteBuffer_7_bytes :
  ITMWriteBuffer cm3 3 4 [1; 2; 3; 4; 5; 6; 7] 7 tracing
  = Done tt {| regs := regs tracing;
               writes := [StimWrite 4 W32 0x04030201;
                          StimWrite 4 W16 0x0605;
                          StimWrite 4 W8 0x07];
               fifo := fifo tracing;
               polls := 9 |}.
Proof. reflexivity. Qed.

(** With too little fuel for a wait the call is still spinning. *)
Example ITMWriteBuffer_7_bytes_spinning :
  ITMWriteBuffer cm3 2 4 [1; 2; 3; 4; 5; 6; 7] 7 tracing = Spinning.
Proof. reflexivity. Qed.

Example ITMWriteBuffer_empty :
  ITMWriteBuffer cm3 0 4 [] 0 tracing = Done tt tracing.
Proof. reflexivity. Qed.

(** The wait has no timeout: on an enabled port whose FIFO never becomes
    ready, a scalar write is still spinning whatever the fuel. *)
Lemma ITMWrite8_blocked (P : platform) (fuel : nat) (port value : Z) (m : machine) :
  ITMIsPortEnabled P port m = Done true m ->
  0 <= port < 32 ->
  (forall t : nat, fifo m port t = 0) ->
  ITMWrite8 P fuel port value m = Spinning.
Proof.
  intros Henabled Hport Hbusy. apply in_word_spec in Hport.
  unfold ITMWrite8, bind. rewrite Henabled. cbn [negb].
  now rewrite wait_port_blocked.
Qed.

(** ** Control words built by or-ing shifted fields *)

Lemma placed_spec (f : field) :
  placed f = true -> 0 <= f_pos f /\ 0 < f_width f /\ f_pos f + f_width f <= 32.
Proof.
  unfold placed. rewrite !andb_true_iff, Z.leb_le, Z.ltb_lt, Z.leb_le. tauto.
Qed.

Lemma apart_spec (f g : field) :
  apart f g = true ->
  f_pos f + f_width f <= f_pos g \/ f_pos g + f_width g <= f_pos f.
Proof. unfold apart. now rewrite orb_true_iff, !Z.leb_le. Qed.

Lemma testbit_small (v w k : Z) :
  0 <= v < 2 ^ w -> 0 <= w -> (k < 0 \/ w <= k) -> Z.testbit v k = false.
Proof.
  intros Hv Hw [Hk|Hk].
  - now apply Z.testbit_neg_r.
  - rewrite <- (Z.mod_small v (2 ^ w)) by exact Hv.
    apply Z.mod_pow2_bits_high. lia.
Qed.

Lemma testbit_encode (f : field) (i : Z) :
  0 <= i < 32 ->
  Z.testbit (encode f) i = Z.testbit (f_value f) (i - f_pos f).
Proof.
  intros Hi. unfold encode. rewrite u32_s32, u32_testbit.
  assert ((i <? 32) = true) as -> by (apply Z.ltb_lt; lia).
  cbn [andb]. apply Z.shiftl_spec. lia.
Qed.

Lemma testbit_fold_lor (fs : list field) (acc i : Z) :
  Z.testbit (fold_left (fun w f => Z.lor w (encode f)) fs acc) i
  = Z.testbit acc i || existsb (fun f => Z.testbit (encode f) i) fs.
Proof.
  revert acc. induction fs as [|f fs IH]; intros acc; cbn [fold_left existsb].
  - now rewrite orb_false_r.
  - now rewrite IH, Z.lor_spec, orb_assoc.
Qed.

Lemma testbit_word_of (fs : list field) (i : Z) :
  Z.testbit (word_of fs) i = existsb (fun f => Z.testbit (encode f) i) fs.
Proof. unfold word_of. now rewrite testbit_fold_lor, Z.bits_0. Qed.

(** A field does not reach the bits of a field it is apart from. *)
Lemma encode_apart (f g : field) (i : Z) :
  placed f = true -> fits g -> placed g = true ->
  f_pos f + f_width f <= f_pos g \/ f_pos g + f_width g <= f_pos f ->
  0 <= i < f_width f ->
  Z.testbit (encode g) (f_pos f + i) = false.
Proof.
  intros Hf Hg Hpg Hapart Hi.
  apply placed_spec in Hf. apply placed_spec in Hpg.
  rewrite testbit_encode by lia.
  apply (testbit_small _ (f_width g)); [exact Hg | lia | lia].
Qed.

Lemma encode_apart_all (f : field) (gs : list field) (i : Z) :
  placed f = true ->
  Forall fits gs ->
  forallb placed gs = true ->
  (forall g, In g gs ->
     f_pos f + f_width f <= f_pos g \/ f_pos g + f_width g <= f_pos f) ->
  0 <= i < f_width f ->
  existsb (fun g => Z.testbit (encode g) (f_pos f + i)) gs = false.
Proof.
  intros Hf Hfits Hplaced Hapart Hi.
  destruct (existsb _ gs) eqn:E; [|reflexivity].
  apply existsb_exists in E as (g & Hin & Hbit).
  rewrite Forall_forall in Hfits. rewrite forallb_forall in Hplaced.
  rewrite (encode_apart f g i) in Hbit; auto.
Qed.

Lemma extract_u32 (pos width w : Z) :
  0 <= pos -> 0 <= width -> pos + width <= 32 ->
  extract pos width (u32 w) = extract pos width w.
Proof.
  intros Hpos Hwidth Hw. unfold extract. apply Z.bits_inj'. intros i Hi.
  rewrite !Z.land_spec, !Z.shiftr_spec, u32_testbit by lia.
  destruct (Z.ltb_spec (i + pos) 32); [reflexivity|].
  cbn [andb]. rewrite Z.ones_spec_high by lia. now rewrite andb_false_r.
Qed.

Section Fields.

(** A word made of fields that are well laid out and hold values that
    fit. *)
Variable fs : list field.
Hypothesis fs_layout : layout_ok fs = true.
Hypothesis fs_fit : Forall fits fs.

Lemma fields_placed (f : field) : In f fs -> placed f = true.
Proof.
  pose proof fs_layout as H. unfold layout_ok in H.
  apply andb_true_iff in H as [H _].
  rewrite forallb_forall in H. auto.
Qed.

(** Each field reads back, bit by bit, as the value put in. *)
Lemma word_of_field_bits (f : field) (i : Z) :
  In f fs ->
  0 <= i < f_width f ->
  Z.testbit (word_of fs) (f_pos f + i) = Z.testbit (f_value f) i.
Proof.
  intros Hin Hi. rewrite testbit_word_of.
  pose proof fs_layout as L. pose proof fs_fit as F.
  unfold layout_ok in L. apply andb_true_iff in L as [Hplaced Hdisj].
  clear fs_layout fs_fit. revert Hplaced Hdisj F Hin.
  induction fs as [|g gs IH]; intros Hplaced Hdisj Hfits Hin; [contradiction|].
  cbn [forallb disjoint existsb] in *.
  apply andb_true_iff in Hplaced as [Hpg Hpgs].
  apply andb_true_iff in Hdisj as [Hag Hdgs].
  rewrite forallb_forall in Hag.
  inversion_clear Hfits as [|? ? Hfg Hfgs].
  destruct Hin as [->|Hin].
  - rewrite encode_apart_all; auto.
    + rewrite orb_false_r, testbit_encode.
      * f_equal. lia.
      * apply placed_spec in Hpg. lia.
    + intros h Hh. apply apart_spec. auto.
  - rewrite (encode_apart f g i); auto.
    + rewrite forallb_forall in Hpgs. auto.
    + specialize (Hag f Hin). apply apart_spec in Hag. tauto.
Qed.

(** Each field reads back as the value put in. *)
Lemma word_of_extract (f : field) :
  In f fs -> extract (f_pos f) (f_width f) (word_of fs) = f_value f.
Proof.
  intros Hin.
  pose proof (fields_placed f Hin) as Hp. apply placed_spec in Hp.
  assert (Hf : fits f) by (rewrite Forall_forall in fs_fit; auto).
  unfold extract. apply Z.bits_inj'. intros i Hi.
  rewrite Z.land_spec, Z.shiftr_spec by lia.
  destruct (Z.ltb_spec i (f_width f)).
  - rewrite Z.ones_spec_low, andb_true_r by lia.
    rewrite Z.add_comm. now apply word_of_field_bits.
  - rewrite Z.ones_spec_high, andb_false_r by lia.
    symmetry. apply (testbit_small _ (f_width f)); [exact Hf | lia | lia].
Qed.

End Fields.

(** ** The DWT control word *)

Lemma DWT_ctrl_layout (C : cmsis) (o : DWTOptions) :
  layout_ok (DWT_ctrl_fields C o) = DWT_CTRL_layout_ok C.
Proof. reflexivity. Qed.

Lemma DWT_ctrl_fits (C : cmsis) (o : DWTOptions) :
  1 <= SamplingPrescaler o <= 16 ->
  Forall fits (DWT_ctrl_fields C o).
Proof.
  intros Hp. unfold DWT_ctrl_fields.
  repeat (apply Forall_cons; [unfold fits; cbn [f_value f_width]|]);
    try apply Forall_nil.
  1-7: match goal with |- 0 <= b2i ?b < _ => destruct b; cbn; lia end.
  - destruct (SyncTap o); cbn; lia.
  - destruct (CycleTap o); cbn; lia.
  - cbn. lia.
  - cbn. lia.
Qed.

Lemma DWTSetup_run (P : platform) (o : DWTOptions) (m : machine) :
  DWT_CTRL_layout_ok P = true ->
  DWTSetup P o m = Done tt (after_DWTSetup P o m).
Proof.
  unfold DWT_CTRL_layout_ok, layout_ok. rewrite andb_true_iff. intros [Hplaced _].
  cbn [DWT_ctrl_fields forallb] in Hplaced.
  repeat match type of Hplaced with
         | _ && _ = true =>
             let H := fresh "Hp" in
             apply andb_true_iff in Hplaced as [H Hplaced];
             apply placed_spec in H; cbn [f_pos f_width] in H
         end.
  unfold DWTSetup, bind, read, write.
  repeat (rewrite shl_in_word by lia).
  unfold after_DWTSetup. cbn [regs writes fifo polls].
  f_equal. f_equal.
  - unfold DWT_ctrl_word, word_of, DWT_ctrl_fields, encode.
    cbn [fold_left f_pos f_width f_value].
    unfold DWT_CTRL_CYCCNTENA_Msk. now rewrite (u32_one_hot (DWT_CTRL_CYCCNTENA_Pos P)) by lia.
  - rewrite <- !app_assoc. cbn [app]. do 3 f_equal.
    unfold DWT_ctrl_word, word_of, DWT_ctrl_fields, encode.
    cbn [fold_left f_pos f_width f_value].
    unfold DWT_CTRL_CYCCNTENA_Msk. now rewrite (u32_one_hot (DWT_CTRL_CYCCNTENA_Pos P)) by lia.
Qed.

Lemma DWT_ctrl_word_bits (C : cmsis) (o : DWTOptions) (f : field) (i : Z) :
  DWT_CTRL_layout_ok C = true ->
  1 <= SamplingPrescaler o <= 16 ->
  In f (DWT_ctrl_fields C o) ->
  0 <= i < f_width f ->
  Z.testbit (DWT_ctrl_word C o) (f_pos f + i) = Z.testbit (f_value f) i.
Proof.
  intros Hok Hp Hin Hi. rewrite <- (DWT_ctrl_layout C o) in Hok.
  pose proof (fields_placed _ Hok f Hin) as Hpl. apply placed_spec in Hpl.
  unfold DWT_ctrl_word. rewrite u32_testbit.
  assert ((f_pos f + i <? 32) = true) as -> by (apply Z.ltb_lt; lia).
  cbn [andb]. apply word_of_field_bits; auto using DWT_ctrl_fits.
Qed.

Lemma DWT_ctrl_word_extract (C : cmsis) (o : DWTOptions) (f : field) :
  DWT_CTRL_layout_ok C = true ->
  1 <= SamplingPrescaler o <= 16 ->
  In f (DWT_ctrl_fields C o) ->
  extract (f_pos f) (f_width f) (DWT_ctrl_word C o) = f_value f.
Proof.
  intros Hok Hp Hin. rewrite <- (DWT_ctrl_layout C o) in Hok.
  pose proof (fields_placed _ Hok f Hin) as Hpl. apply placed_spec in Hpl.
  unfold DWT_ctrl_word. rewrite extract_u32 by lia.
  apply word_of_extract; auto using DWT_ctrl_fits.
Qed.

Lemma testbit_b2i (b : bool) : Z.testbit (b2i b) 0 = b.
Proof. now destruct b. Qed.

(** C5. For a sampling prescaler [p] in [1,16], the four-bit POSTPRESET
    field of the control word [DWTSetup] writes to [DWT->CTRL] is [p - 1]. *)
Theorem DWTSetup_prescaler_field (P : platform) (o : DWTOptions) (m : machine) :
  DWT_CTRL_layout_ok P = true ->
  1 <= SamplingPrescaler o <= 16 ->
  exists m' : machine,
    DWTSetup P o m = Done tt m'
    /\ extract (DWT_CTRL_POSTPRESET_Pos P) 4 (regs m' DWT_CTRL)
       = SamplingPrescaler o - 1.
Proof.
  intros Hok Hp. exists (after_DWTSetup P o m). split.
  - now apply DWTSetup_run.
  - cbn [after_DWTSetup regs]. unfold upd at 1. cbn.
    apply (DWT_ctrl_word_extract P o
             (mkField (DWT_CTRL_POSTPRESET_Pos P) 4 (SamplingPrescaler o - 1)));
      auto.
    cbn. tauto.
Qed.

Lemma DWTSetup_prescaler_field_witness :
  exists m' : machine,
    DWTSetup cm3 pc_sampling idle_machine = Done tt m'
    /\ extract 1 4 (regs m' DWT_CTRL) = 15.
Proof.
  apply (DWTSetup_prescaler_field cm3 pc_sampling idle_machine).
  - reflexivity.
  - cbn. lia.
Defined.

(** C6. For every combination of the seven flags (with the tap selectors of
    the enumerations and a prescaler in its documented range [1,16]),
    [DWTSetup] returns having written [DWT->CTRL] exactly once, with a word
    that depends on the options alone: each flag's bit is the flag, the
    cycle-counter-enable bit is set, and the tap-selector and prescaler
    fields read back as given, none disturbing another. *)
Theorem DWTSetup_control_word (P : platform) (o : DWTOptions) (m : machine) :
  DWT_CTRL_layout_ok P = true ->
  1 <= SamplingPrescaler o <= 16 ->
  exists m' : machine,
    DWTSetup P o m = Done tt m'
    /\ writes m'
       = writes m
         ++ [RegWrite CoreDebug_DEMCR
               (u32 (Z.lor (regs m CoreDebug_DEMCR) (CoreDebug_DEMCR_TRCENA_Msk P)));
             RegWrite DWT_LAR 0xC5ACCE55;
             RegWrite DWT_CTRL (DWT_ctrl_word P o)]
    /\ regs m' DWT_CTRL = DWT_ctrl_word P o
    /\ Z.testbit (DWT_ctrl_word P o) (DWT_CTRL_FOLDEVTENA_Pos P)
       = FoldedInstructionCounterEvent o
    /\ Z.testbit (DWT_ctrl_word P o) (DWT_CTRL_LSUEVTENA_Pos P)
       = LSUCounterEvent o
    /\ Z.testbit (DWT_ctrl_word P o) (DWT_CTRL_SLEEPEVTENA_Pos P)
       = SleepCounterEvent o
    /\ Z.testbit (DWT_ctrl_word P o) (DWT_CTRL_EXCEVTENA_Pos P)
       = ExceptionOverheadCounterEvent o
    /\ Z.testbit (DWT_ctrl_word P o) (DWT_CTRL_CPIEVTENA_Pos P)
       = CPICounterEvent o
    /\ Z.testbit (DWT_ctrl_word P o) (DWT_CTRL_EXCTRCENA_Pos P)
       = ExceptionTrace o
    /\ Z.testbit (DWT_ctrl_word P o) (DWT_CTRL_PCSAMPLENA_Pos P)
       = PCSampling o
    /\ Z.testbit (DWT_ctrl_word P o) (DWT_CTRL_CYCCNTENA_Pos P) = true
    /\ extract (DWT_CTRL_SYNCTAP_Pos P) 2 (DWT_ctrl_word P o)
       = DWTSyncTap_int (SyncTap o)
    /\ extract (DWT_CTRL_CYCTAP_Pos P) 1 (DWT_ctrl_word P o)
       = DWTCycleTap_int (CycleTap o)
    /\ extract (DWT_CTRL_POSTPRESET_Pos P) 4 (DWT_ctrl_word P o)
       = SamplingPrescaler o - 1.
Proof.
  intros Hok Hp. exists (after_DWTSetup P o m).
  split; [now apply DWTSetup_run|].
  split; [reflexivity|].
  split; [cbn [after_DWTSetup regs]; unfold upd at 1; now cbn|].
  assert (Hflag : forall pos b,
    In (mkField pos 1 (b2i b)) (DWT_ctrl_fields P o) ->
    Z.testbit (DWT_ctrl_word P o) pos = b).
  { intros pos b Hin. rewrite <- (testbit_b2i b), <- (Z.add_0_r pos).
    apply (DWT_ctrl_word_bits P o (mkField pos 1 (b2i b)) 0); auto. cbn. lia. }
  assert (Hfield : forall pos w v,
    In (mkField pos w v) (DWT_ctrl_fields P o) ->
    extract pos w (DWT_ctrl_word P o) = v).
  { intros pos w v Hin.
    apply (DWT_ctrl_word_extract P o (mkField pos w v)); auto. }
  repeat split.
  1-7: apply Hflag; cbn; tauto.
  - apply (Hflag _ true). cbn. tauto.
  - rewrite (Hfield _ _ (Z.land (DWTSyncTap_int (SyncTap o)) 3)) by (cbn; tauto).
    now destruct (SyncTap o).
  - rewrite (Hfield _ _ (Z.land (DWTCycleTap_int (CycleTap o)) 3)) by (cbn; tauto).
    now destruct (CycleTap o).
  - apply Hfield. cbn. tauto.
Qed.

Lemma DWTSetup_control_word_witness :
  exists m' : machine,
    DWTSetup cm3 pc_sampling idle_machine = Done tt m'
    /\ writes m'
       = [RegWrite CoreDebug_DEMCR 0x01000000;
          RegWrite DWT_LAR 0xC5ACCE55;
          RegWrite DWT_CTRL 0x00011A1F]
    /\ regs m' DWT_CTRL = 0x00011A1F
    /\ Z.testbit 0x00011A1F 21 = false
    /\ Z.testbit 0x00011A1F 20 = false
    /\ Z.testbit 0x00011A1F 19 = false
    /\ Z.testbit 0x00011A1F 18 = false
    /\ Z.testbit 0x00011A1F 17 = false
    /\ Z.testbit 0x00011A1F 16 = true
    /\ Z.testbit 0x00011A1F 12 = true
    /\ Z.testbit 0x00011A1F 0 = true
    /\ extract 10 2 0x00011A1F = 2
    /\ extract 9 1 0x00011A1F = 1
    /\ extract 1 4 0x00011A1F = 15.
Proof.
  apply (DWTSetup_control_word cm3 pc_sampling idle_machine).
  - reflexivity.
  - cbn. lia.
Defined.

(** A prescaler of 0 is outside the documented range: [0 - 1] shifted into
    place sets every bit of the word. *)
Example DWTSetup_prescaler_0 :
  DWT_ctrl_word core_cm3
    {| FoldedInstructionCounterEvent := false;
       LSUCounterEvent := false;
       SleepCounterEvent := false;
       ExceptionOverheadCounterEvent := false;
       CPICounterEvent := false;
       ExceptionTrace := false;
       PCSampling := false;
       SyncTap := DWTSyncTapDisabled;
       CycleTap := DWTCycleTap6;
       SamplingPrescaler := 0 |} = 0xFFFFFFFF.
Proof. reflexivity. Qed.

(** ** DWT comparators *)

Lemma small_index (i : Z) : 0 <= i <= 3 -> i = 0 \/ i = 1 \/ i = 2 \/ i = 3.
Proof. lia. Qed.

Lemma upd_same (r : reg) (v : Z) (f : reg -> Z) : upd r v f r = v.
Proof. unfold upd. now destruct (reg_eq_dec r r). Qed.

Lemma upd_other (r r' : reg) (v : Z) (f : reg -> Z) :
  r' <> r -> upd r v f r' = f r'.
Proof. intros H. unfold upd. destruct (reg_eq_dec r r'); congruence. Qed.

Lemma DWTDisableComparator_run (i : Z) (m : machine) :
  0 <= i <= 3 ->
  DWTDisableComparator i m
  = Done tt {| regs := upd (DWT_FUNCTION i) 0 (regs m);
               writes := writes m ++ [RegWrite (DWT_FUNCTION i) 0];
               fifo := fifo m;
               polls := polls m |}.
Proof.
  intros Hi. destruct (small_index i Hi) as [-> | [-> | [-> | ->]]]; reflexivity.
Qed.

Lemma DWTEnableComparator_run (P : platform) (i address ignoreBits : Z)
  (emitRange : bool) (function : Z) (m : machine) :
  DWT_FUNCTION_layout_ok P = true ->
  0 <= i <= 3 ->
  DWTEnableComparator P i address ignoreBits emitRange function m
  = Done tt
      {| regs := upd (DWT_FUNCTION i) (u32 (funcRaw P emitRange function))
                   (upd (DWT_MASK i) (u32 ignoreBits)
                      (upd (DWT_COMP i) (u32 address) (regs m)));
         writes := writes m
                   ++ [RegWrite (DWT_COMP i) (u32 address);
                       RegWrite (DWT_MASK i) (u32 ignoreBits);
                       RegWrite (DWT_FUNCTION i) (u32 (funcRaw P emitRange function))];
         fifo := fifo m;
         polls := polls m |}.
Proof.
  unfold DWT_FUNCTION_layout_ok. rewrite andb_true_iff, !in_word_spec.
  intros [Hf He] Hi.
  unfold DWTEnableComparator, bind. rewrite !shl_in_word by assumption.
  fold (funcRaw P emitRange function).
  destruct (small_index i Hi) as [-> | [-> | [-> | ->]]];
    unfold bind, write; cbn [regs writes fifo polls DWT_COMP DWT_MASK DWT_FUNCTION];
    now rewrite <- !app_assoc.
Qed.

(** A watchpoint on the word at [0x20000000]: function 5 with the emit-range
    bit gives [0x25]. *)
Example DWTEnableComparator_watch :
  DWTEnableComparator cm3 1 0x20000000 2 true 5 idle_machine
  = Done tt {| regs := upd DWT_FUNCTION1 0x25
                         (upd DWT_MASK1 2
                            (upd DWT_COMP1 0x20000000 (regs idle_machine)));
               writes := [RegWrite DWT_COMP1 0x20000000;
                          RegWrite DWT_MASK1 2;
                          RegWrite DWT_FUNCTION1 0x25];
               fifo := fifo idle_machine;
               polls := 0 |}.
Proof. reflexivity. Qed.

(** C7. For a comparator index in [0,3], [DWTDisableComparator] writes 0 to
    that comparator's function register and to nothing else, so its address
    and mask registers keep their contents; after [DWTEnableComparator] with
    an address and [DWTDisableComparator] on the same index the function
    register reads 0 and the address register still reads the address. *)
Theorem DWTDisableComparator_clears_function_only
  (P : platform) (i address ignoreBits : Z) (emitRange : bool) (function : Z)
  (m : machine) :
  DWT_FUNCTION_layout_ok P = true ->
  0 <= i <= 3 ->
  0 <= address < 2 ^ 32 ->
  0 <= ignoreBits < 2 ^ 8 ->
  (exists m' : machine,
     DWTDisableComparator i m = Done tt m'
     /\ writes m' = writes m ++ [RegWrite (DWT_FUNCTION i) 0]
     /\ regs m' (DWT_FUNCTION i) = 0
     /\ forall r : reg, r <> DWT_FUNCTION i -> regs m' r = regs m r)
  /\ (exists m'' : machine,
        (DWTEnableComparator P i address ignoreBits emitRange function ;;
         DWTDisableComparator i) m = Done tt m''
        /\ regs m'' (DWT_FUNCTION i) = 0
        /\ regs m'' (DWT_COMP i) = address
        /\ regs m'' (DWT_MASK i) = ignoreBits).
Proof.
  intros Hok Hi Ha Hb. split.
  - eexists. split; [now apply DWTDisableComparator_run|].
    cbn [regs writes]. repeat split.
    + apply upd_same.
    + intros r Hr. now apply upd_other.
  - eexists. unfold bind at 1.
    rewrite DWTEnableComparator_run by assumption.
    split; [now apply DWTDisableComparator_run|].
    cbn [regs]. rewrite upd_same. split; [reflexivity|].
    assert (Hb32 : 0 <= ignoreBits < 2 ^ 32) by lia.
    destruct (small_index i Hi) as [-> | [-> | [-> | ->]]];
      cbn; now rewrite !u32_small by assumption.
Qed.

Lemma DWTDisableComparator_clears_function_only_witness :
  (exists m' : machine,
     DWTDisableComparator 1 idle_machine = Done tt m'
     /\ writes m' = writes idle_machine ++ [RegWrite DWT_FUNCTION1 0]
     /\ regs m' DWT_FUNCTION1 = 0
     /\ forall r : reg, r <> DWT_FUNCTION1 -> regs m' r = regs idle_machine r)
  /\ (exists m'' : machine,
        (DWTEnableComparator cm3 1 0x20000000 2 true 5 ;;
         DWTDisableComparator 1) idle_machine = Done tt m''
        /\ regs m'' DWT_FUNCTION1 = 0
        /\ regs m'' DWT_COMP1 = 0x20000000
        /\ regs m'' DWT_MASK1 = 2).
Proof.
  apply (DWTDisableComparator_clears_function_only
           cm3 1 0x20000000 2 true 5 idle_machine).
  - reflexivity.
  - lia.
  - lia.
  - lia.
Defined.

(** C8. For a comparator index above 3, [DWTEnableComparator] and
    [DWTDisableComparator] return with the machine they were given: no
    register is written and no error is raised. *)
Theorem comparator_out_of_range_noop
  (P : platform) (comparator address ignoreBits : Z) (emitRange : bool)
  (function : Z) (m : machine) :
  DWT_FUNCTION_layout_ok P = true ->
  3 < comparator ->
  DWTEnableComparator P comparator address ignoreBits emitRange function m
    = Done tt m
  /\ DWTDisableComparator comparator m = Done tt m.
Proof.
  unfold DWT_FUNCTION_layout_ok. rewrite andb_true_iff, !in_word_spec.
  intros [Hf He] Hc.
  unfold DWTEnableComparator, DWTDisableComparator, bind.
  rewrite !shl_in_word by assumption.
  destruct comparator as [|p|p]; try lia.
  destruct p as [[p|p|]|[p|p|]|]; try lia; split; reflexivity.
Qed.

Lemma comparator_out_of_range_noop_witness :
  DWTEnableComparator cm3 7 0x20000000 2 true 5 idle_machine = Done tt idle_machine
  /\ DWTDisableComparator 7 idle_machine = Done tt idle_machine.
Proof.
  apply (comparator_out_of_range_noop cm3 7 0x20000000 2 true 5 idle_machine).
  - reflexivity.
  - lia.
Defined.

(** ** TPIU *)

Lemma testbit_set_bit (a pos i : Z) :
  0 <= pos -> 0 <= i ->
  Z.testbit (Z.lor a (Z.shiftl 1 pos)) i = Z.testbit a i || (i =? pos).
Proof.
  intros Hp Hi. rewrite Z.lor_spec, Z.shiftl_spec, testbit_one by lia.
  f_equal. destruct (Z.eqb_spec (i - pos) 0), (Z.eqb_spec i pos); (reflexivity || lia).
Qed.

Lemma testbit_clear_bit (a pos i : Z) :
  0 <= pos -> 0 <= i < 32 ->
  Z.testbit (Z.land a (u32 (Z.lnot (Z.shiftl 1 pos)))) i
  = Z.testbit a i && negb (i =? pos).
Proof.
  intros Hp Hi.
  rewrite Z.land_spec, u32_testbit, Z.lnot_spec, Z.shiftl_spec, testbit_one by lia.
  assert ((i <? 32) = true) as -> by (apply Z.ltb_lt; lia).
  cbn [andb]. f_equal. f_equal.
  destruct (Z.eqb_spec (i - pos) 0), (Z.eqb_spec i pos); (reflexivity || lia).
Qed.

Lemma TpiuSetup_run (P : platform) (o : TpiuOptions) (m : machine) :
  1 <= TracePortWidth o <= 32 ->
  TpiuSetup P o m = Done tt (after_TpiuSetup P o m).
Proof.
  intros Hw. unfold TpiuSetup, bind, read, write.
  rewrite shl_in_word by lia.
  unfold after_TpiuSetup. cbn [regs writes fifo polls].
  destruct (FormattingEnabled o); cbn [regs writes fifo polls];
    now rewrite <- !app_assoc.
Qed.

(** C9, as the code has it.  For every options record whose trace port width
    is in [1,32], [TpiuSetup] returns having written [TPI->ACPR] with the
    prescaler minus one (as a 32-bit value), [TPI->SPPR] with the protocol,
    [TPI->CSPSR] with the word whose only set bit is bit [width - 1], and
    [TPI->FFCR] with its old contents except for the formatting-enable bit,
    which is the formatting flag. *)
Theorem TpiuSetup_registers (P : platform) (o : TpiuOptions) (m : machine) :
  0 <= TPI_FFCR_EnFCont_Pos P < 32 ->
  1 <= TracePortWidth o <= 32 ->
  exists m' : machine,
    TpiuSetup P o m = Done tt m'
    /\ regs m' TPI_ACPR = u32 (SwoPrescaler o - 1)
    /\ regs m' TPI_SPPR = TpiuProtocol_int (Protocol o)
    /\ regs m' TPI_CSPSR = 2 ^ (TracePortWidth o - 1)
    /\ (forall i : Z,
          Z.testbit (regs m' TPI_CSPSR) i = (i =? TracePortWidth o - 1))
    /\ Z.testbit (regs m' TPI_FFCR) (TPI_FFCR_EnFCont_Pos P) = FormattingEnabled o
    /\ (forall i : Z,
          0 <= i < 32 -> i <> TPI_FFCR_EnFCont_Pos P ->
          Z.testbit (regs m' TPI_FFCR) i = Z.testbit (regs m TPI_FFCR) i).
Proof.
  intros Hpos Hw. exists (after_TpiuSetup P o m).
  split; [now apply TpiuSetup_run|].
  assert (Hc : regs (after_TpiuSetup P o m) TPI_CSPSR = 2 ^ (TracePortWidth o - 1)).
  { cbn. rewrite u32_one_hot by lia. apply Z.shiftl_1_l. }
  split; [cbn; apply u32_s32|].
  split; [cbn; destruct (Protocol o); reflexivity|].
  split; [exact Hc|].
  split.
  { intros i. rewrite Hc. destruct (Z.eqb_spec i (TracePortWidth o - 1)) as [->|Hne].
    - apply Z.pow2_bits_true. lia.
    - apply Z.pow2_bits_false. congruence. }
  unfold after_TpiuSetup. cbn [regs]. rewrite !upd_same.
  unfold TPI_FFCR_EnFCont_Msk. split.
  - destruct (FormattingEnabled o); rewrite u32_testbit.
    + rewrite testbit_set_bit, Z.eqb_refl, orb_true_r by lia.
      rewrite andb_true_r. apply Z.ltb_lt. lia.
    + rewrite testbit_clear_bit, Z.eqb_refl by lia.
      cbn [negb]. now rewrite !andb_false_r.
  - intros i Hi Hne.
    assert ((i <? 32) = true) as H32 by (apply Z.ltb_lt; lia).
    assert ((i =? TPI_FFCR_EnFCont_Pos P) = false) as Hneq by (apply Z.eqb_neq; lia).
    destruct (FormattingEnabled o); rewrite u32_testbit, H32; cbn [andb].
    + now rewrite testbit_set_bit, Hneq, orb_false_r by lia.
    + now rewrite testbit_clear_bit, Hneq, andb_true_r by lia.
Qed.

Lemma TpiuSetup_registers_witness :
  exists m' : machine,
    TpiuSetup cm3 swo_uart formatter_on = Done tt m'
    /\ regs m' TPI_ACPR = 15
    /\ regs m' TPI_SPPR = 2
    /\ regs m' TPI_CSPSR = 1
    /\ (forall i : Z, Z.testbit (regs m' TPI_CSPSR) i = (i =? 0))
    /\ Z.testbit (regs m' TPI_FFCR) 1 = false
    /\ (forall i : Z,
          0 <= i < 32 -> i <> 1 ->
          Z.testbit (regs m' TPI_FFCR) i = Z.testbit 0x102 i).
Proof.
  apply (TpiuSetup_registers cm3 swo_uart formatter_on); cbn; lia.
Defined.

Lemma TpiuSetup_width_0 :
  TpiuSetup cm3 width_0 idle_machine = Undefined
  /\ ~ (exists m' : machine,
          TpiuSetup cm3 width_0 idle_machine = Done tt m'
          /\ Z.testbit (regs m' TPI_CSPSR) (TracePortWidth width_0 - 1) = true)
  /\ ~ (exists m' : machine,
          TpiuSetup cm3_mod32 width_0 idle_machine = Done tt m'
          /\ Z.testbit (regs m' TPI_CSPSR) (TracePortWidth width_0 - 1) = true).
Proof.
  split; [reflexivity|]. split.
  - intros (m' & H & _). discriminate H.
  - intros (m' & _ & H). rewrite Z.testbit_neg_r in H by (cbn; lia).
    discriminate H.
Qed.

(** ** ITM setup *)

(** Whatever the options, a call of [ITMSetup] that returns has set every
    bit of [ITM->TER]. *)
Lemma ITMSetup_TER (P : platform) (o : ITMOptions) (m m' : machine) :
  ITMSetup P o m = Done tt m' -> regs m' ITM_TER = 0xFFFFFFFF.
Proof.
  unfold ITMSetup. intros H.
  repeat (apply bind_Done in H as (? & ? & _ & H); cbv beta zeta in H).
  unfold write in H. injection H as <-. cbn [regs]. now rewrite upd_same.
Qed.

(** With the positions of [ITM_TCR] within the word, [ITMSetup] returns for
    every options record, and [ITM->TER] then holds [0xFFFFFFFF]. *)
Lemma ITMSetup_run (P : platform) (o : ITMOptions) (m : machine) :
  ITM_TCR_layout_ok P = true ->
  ITMSetup P o m = Done tt (after_ITMSetup P o m).
Proof.
  unfold ITM_TCR_layout_ok. cbn [ITM_tcr_fields forallb f_pos].
  rewrite !andb_true_iff, !in_word_spec. intros (H1 & H2 & H3 & H4 & H5 & H6 & H7 & _).
  unfold ITMSetup, bind, read, write.
  repeat (rewrite shl_in_word by assumption).
  unfold after_ITMSetup. cbn [regs writes fifo polls].
  assert (E : u32 (Z.lor (Z.lor (Z.lor (Z.lor (Z.lor (Z.lor (Z.lor 0
                (u32 (s32 (Z.shiftl (TraceBusID o) (ITM_TCR_TraceBusID_Pos P)))))
                (u32 (s32 (Z.shiftl (ITMGlobalTimestampFrequency_int
                                       (GlobalTimestampFrequency o))
                                    (ITM_TCR_GTSFREQ_Pos P)))))
                (u32 (s32 (Z.shiftl (ITMLocalTimestampPrescaler_int
                                       (LocalTimestampPrescaler o))
                                    (ITM_TCR_TSPrescale_Pos P)))))
                (u32 (s32 (Z.shiftl (b2i (ForwardDWT o)) (ITM_TCR_DWTENA_Pos P)))))
                (u32 (s32 (Z.shiftl (b2i (EnableSyncPacket o)) (ITM_TCR_SYNCENA_Pos P)))))
                (u32 (s32 (Z.shiftl (b2i (EnableLocalTimestamp o)) (ITM_TCR_TSENA_Pos P)))))
                (ITM_TCR_ITMENA_Msk P))
              = u32 (word_of (ITM_tcr_fields P o))).
  { unfold word_of, ITM_tcr_fields, encode. cbn [fold_left f_pos f_width f_value].
    unfold ITM_TCR_ITMENA_Msk. now rewrite (u32_one_hot (ITM_TCR_ITMENA_Pos P)). }
  rewrite E. now rewrite <- !app_assoc.
Qed.

(** Trace bus ID 1: [ITM->TCR] gets the ID at bit 16 and the enable bit. *)
Example ITMSetup_only_port_0 :
  ITMSetup cm3 only_port_0 idle_machine
  = Done tt {| regs := regs (after_ITMSetup cm3 only_port_0 idle_machine);
               writes := [RegWrite CoreDebug_DEMCR 0x01000000;
                          RegWrite ITM_LAR 0xC5ACCE55;
                          RegWrite ITM_TCR 0x00010001;
                          RegWrite ITM_TER 0xFFFFFFFF];
               fifo := fifo idle_machine;
               polls := 0 |}.
Proof. now rewrite ITMSetup_run. Qed.

(** C1 does not hold of the code.  [ITMSetup] never reads
    [EnabledStimulusPorts]: with only port 0 requested it writes
    [0xFFFFFFFF] to [ITM->TER], and port 5 is then reported enabled. *)
Theorem ITMSetup_ignores_EnabledStimulusPorts :
  exists m' : machine,
    ITMSetup cm3 only_port_0 idle_machine = Done tt m'
    /\ regs m' ITM_TER = 0xFFFFFFFF
    /\ regs m' ITM_TER <> EnabledStimulusPorts only_port_0
    /\ ITMIsPortEnabled cm3 5 m' = Done true m'.
Proof.
  eexists. split; [vm_compute; reflexivity|].
  split; [reflexivity|]. split; [discriminate|reflexivity].
Qed.


(** * Further properties *)

(** ** Words of fields, as stored in a register *)

Lemma u32_word_of_extract (fs : list field) (f : field) :
  layout_ok fs = true ->
  Forall fits fs ->
  In f fs ->
  extract (f_pos f) (f_width f) (u32 (word_of fs)) = f_value f.
Proof.
  intros Hok Hfits Hin.
  pose proof (fields_placed fs Hok f Hin) as Hp. apply placed_spec in Hp.
  rewrite extract_u32 by lia. now apply word_of_extract.
Qed.

Lemma u32_word_of_flag (fs : list field) (pos : Z) (b : bool) :
  layout_ok fs = true ->
  Forall fits fs ->
  In (mkField pos 1 (b2i b)) fs ->
  Z.testbit (u32 (word_of fs)) pos = b.
Proof.
  intros Hok Hfits Hin.
  pose proof (fields_placed fs Hok _ Hin) as Hp. apply placed_spec in Hp.
  cbn [f_pos f_width] in Hp.
  rewrite u32_testbit.
  assert ((pos <? 32) = true) as -> by (apply Z.ltb_lt; lia).
  cbn [andb]. rewrite <- (testbit_b2i b), <- (Z.add_0_r pos).
  apply (word_of_field_bits fs Hok Hfits (mkField pos 1 (b2i b)) 0 Hin).
  cbn. lia.
Qed.

(** A bit that is set in the word lies in one of its fields. *)
Lemma word_of_bit_in_field (fs : list field) (i : Z) :
  forallb placed fs = true ->
  Forall fits fs ->
  Z.testbit (u32 (word_of fs)) i = true ->
  exists f : field, In f fs /\ f_pos f <= i < f_pos f + f_width f.
Proof.
  intros Hplaced Hfits Hbit.
  rewrite u32_testbit in Hbit. apply andb_true_iff in Hbit as [Hi Hbit].
  apply Z.ltb_lt in Hi.
  assert (0 <= i).
  { destruct (Z.ltb_spec i 0); [|assumption].
    rewrite Z.testbit_neg_r in Hbit by assumption. discriminate. }
  rewrite testbit_word_of in Hbit.
  apply existsb_exists in Hbit as (f & Hin & Hf).
  exists f. split; [assumption|].
  rewrite forallb_forall in Hplaced. rewrite Forall_forall in Hfits.
  pose proof (Hplaced f Hin) as Hp. apply placed_spec in Hp.
  rewrite testbit_encode in Hf by lia.
  destruct (Z.ltb_spec i (f_pos f)).
  - rewrite Z.testbit_neg_r in Hf by lia. discriminate.
  - destruct (Z.ltb_spec i (f_pos f + f_width f)); [lia|].
    rewrite (testbit_small (f_value f) (f_width f)) in Hf;
      [discriminate | now apply Hfits | lia | lia].
Qed.

(** ** ITM setup: the control word and the ports *)

Lemma ITM_TCR_apart_layout (C : cmsis) :
  ITM_TCR_apart C = true -> ITM_TCR_layout_ok C = true.
Proof.
  unfold ITM_TCR_apart, layout_ok, ITM_TCR_layout_ok.
  rewrite andb_true_iff. intros [H _]. revert H.
  cbn [ITM_tcr_fields forallb f_pos]. unfold placed. cbn [f_pos f_width].
  rewrite !andb_true_iff, !Z.leb_le, !Z.ltb_lt, !in_word_spec. lia.
Qed.

Lemma ITM_tcr_fits (C : cmsis) (o : ITMOptions) :
  0 <= TraceBusID o < 2 ^ 7 ->
  Forall fits (ITM_tcr_fields C o).
Proof.
  intros Hid. unfold ITM_tcr_fields.
  repeat (apply Forall_cons; [unfold fits; cbn [f_value f_width]|]);
    try apply Forall_nil.
  - exact Hid.
  - destruct (GlobalTimestampFrequency o); cbn; lia.
  - destruct (LocalTimestampPrescaler o); cbn; lia.
  - destruct (ForwardDWT o); cbn; lia.
  - destruct (EnableSyncPacket o); cbn; lia.
  - destruct (EnableLocalTimestamp o); cbn; lia.
  - cbn. lia.
Qed.

(** X1. For a trace bus ID of at most seven bits, the word [ITMSetup]
    writes to [ITM->TCR] holds the ID, the two timestamp selectors and the
    three flags each in its own field, and has the ITM-enable bit set. *)
Theorem ITMSetup_control_word (P : platform) (o : ITMOptions) (m : machine) :
  ITM_TCR_apart P = true ->
  0 <= TraceBusID o < 2 ^ 7 ->
  exists m' : machine,
    ITMSetup P o m = Done tt m'
    /\ extract (ITM_TCR_TraceBusID_Pos P) 7 (regs m' ITM_TCR) = TraceBusID o
    /\ extract (ITM_TCR_GTSFREQ_Pos P) 2 (regs m' ITM_TCR)
       = ITMGlobalTimestampFrequency_int (GlobalTimestampFrequency o)
    /\ extract (ITM_TCR_TSPrescale_Pos P) 2 (regs m' ITM_TCR)
       = ITMLocalTimestampPrescaler_int (LocalTimestampPrescaler o)
    /\ Z.testbit (regs m' ITM_TCR) (ITM_TCR_DWTENA_Pos P) = ForwardDWT o
    /\ Z.testbit (regs m' ITM_TCR) (ITM_TCR_SYNCENA_Pos P) = EnableSyncPacket o
    /\ Z.testbit (regs m' ITM_TCR) (ITM_TCR_TSENA_Pos P) = EnableLocalTimestamp o
    /\ Z.testbit (regs m' ITM_TCR) (ITM_TCR_ITMENA_Pos P) = true.
Proof.
  intros Hok Hid. exists (after_ITMSetup P o m).
  split; [apply ITMSetup_run; now apply ITM_TCR_apart_layout|].
  assert (Hreg : regs (after_ITMSetup P o m) ITM_TCR
                 = u32 (word_of (ITM_tcr_fields P o))) by reflexivity.
  rewrite Hreg.
  assert (Hl : layout_ok (ITM_tcr_fields P o) = true) by exact Hok.
  pose proof (ITM_tcr_fits P o Hid) as Hf.
  repeat split.
  - apply (u32_word_of_extract _ (mkField _ 7 _) Hl Hf). cbn. tauto.
  - apply (u32_word_of_extract _ (mkField _ 2 _) Hl Hf). cbn. tauto.
  - apply (u32_word_of_extract _ (mkField _ 2 _) Hl Hf). cbn. tauto.
  - apply (u32_word_of_flag _ _ _ Hl Hf). cbn. tauto.
  - apply (u32_word_of_flag _ _ _ Hl Hf). cbn. tauto.
  - apply (u32_word_of_flag _ _ _ Hl Hf). cbn. tauto.
  - apply (u32_word_of_flag _ _ true Hl Hf). cbn. tauto.
Qed.

Lemma ITMSetup_control_word_witness :
  exists m' : machine,
    ITMSetup cm3 forward_dwt idle_machine = Done tt m'
    /\ extract 16 7 (regs m' ITM_TCR) = 3
    /\ extract 10 2 (regs m' ITM_TCR) = 2
    /\ extract 8 2 (regs m' ITM_TCR) = 1
    /\ Z.testbit (regs m' ITM_TCR) 3 = true
    /\ Z.testbit (regs m' ITM_TCR) 2 = false
    /\ Z.testbit (regs m' ITM_TCR) 1 = true
    /\ Z.testbit (regs m' ITM_TCR) 0 = true.
Proof.
  apply (ITMSetup_control_word cm3 forward_dwt idle_machine).
  - reflexivity.
  - cbn. lia.
Defined.

(** X2. Whatever the options and the registers before, after [ITMSetup]
    every stimulus port from 0 to 31 is reported enabled. *)
Theorem ITMSetup_enables_every_port (P : platform) (o : ITMOptions)
  (m : machine) (port : Z) :
  ITM_TCR_layout_ok P = true ->
  0 <= port <= 31 ->
  exists m' : machine,
    ITMSetup P o m = Done tt m'
    /\ ITMIsPortEnabled P port m' = Done true m'.
Proof.
  intros Hok Hport. exists (after_ITMSetup P o m).
  split; [now apply ITMSetup_run|].
  assert (Hena : 0 <= ITM_TCR_ITMENA_Pos P < 32).
  { revert Hok. unfold ITM_TCR_layout_ok. cbn [ITM_tcr_fields forallb f_pos].
    rewrite !andb_true_iff, !in_word_spec. tauto. }
  rewrite ITMIsPortEnabled_in_word by lia. f_equal.
  unfold port_enabled. apply andb_true_iff. split.
  - change (regs (after_ITMSetup P o m) ITM_TCR)
      with (u32 (word_of (ITM_tcr_fields P o))).
    rewrite u32_testbit, testbit_word_of.
    apply andb_true_iff. split; [apply Z.ltb_lt; lia|].
    apply existsb_exists. exists (mkField (ITM_TCR_ITMENA_Pos P) 1 1). split.
    + cbn. tauto.
    + rewrite testbit_encode by lia. cbn [f_value f_pos].
      now rewrite Z.sub_diag.
  - change (regs (after_ITMSetup P o m) ITM_TER) with (Z.ones 32).
    apply Z.ones_spec_low. lia.
Qed.

Lemma ITMSetup_enables_every_port_witness :
  exists m' : machine,
    ITMSetup cm3 only_port_0 idle_machine = Done tt m'
    /\ ITMIsPortEnabled cm3 31 m' = Done true m'.
Proof.
  apply (ITMSetup_enables_every_port cm3 only_port_0 idle_machine 31).
  - reflexivity.
  - lia.
Defined.

(** ** The setup functions: what they write, and in which order *)

(** Registers of a machine after a run, one register at a time. *)
Ltac reg_cases r :=
  destruct r;
  repeat first [rewrite upd_same | rewrite upd_other by discriminate];
  try reflexivity.

(** Equality of two words, bit by bit. *)
Ltac bits :=
  apply Z.bits_inj'; intros ?i ?Hi;
  repeat first [rewrite u32_testbit | rewrite Z.lor_spec | rewrite Z.land_spec
               | rewrite Z.lnot_spec by assumption];
  repeat match goal with
         | |- context [Z.testbit ?a ?i] => destruct (Z.testbit a i)
         | |- context [?i <? 32] => destruct (i <? 32)
         end;
  reflexivity.

Lemma trcena_twice (d mask : Z) :
  u32 (Z.lor (u32 (Z.lor d mask)) mask) = u32 (Z.lor d mask).
Proof. bits. Qed.

(** X3. [ITMSetup] makes four register writes and no other: the trace
    enable in [DEMCR], the unlock of [ITM->LAR] with [0xC5ACCE55], then
    [ITM->TCR], then [ITM->TER]; every other register keeps its contents. *)
Theorem ITMSetup_trace (P : platform) (o : ITMOptions) (m : machine) :
  ITM_TCR_layout_ok P = true ->
  exists (m' : machine) (demcr tcr : Z),
    ITMSetup P o m = Done tt m'
    /\ writes m' = writes m ++ [RegWrite CoreDebug_DEMCR demcr;
                                RegWrite ITM_LAR 0xC5ACCE55;
                                RegWrite ITM_TCR tcr;
                                RegWrite ITM_TER 0xFFFFFFFF]
    /\ regs m' ITM_LAR = 0xC5ACCE55
    /\ (forall r : reg, ~ In r ITMSetup_regs -> regs m' r = regs m r).
Proof.
  intros Hok. exists (after_ITMSetup P o m). do 2 eexists.
  split; [now apply ITMSetup_run|]. split; [reflexivity|]. split; [reflexivity|].
  intros r Hr. unfold after_ITMSetup, ITMSetup_regs in *. cbn [regs].
  reg_cases r; exfalso; apply Hr; cbn [In]; tauto.
Qed.

Lemma ITMSetup_trace_witness :
  exists (m' : machine) (demcr tcr : Z),
    ITMSetup cm3 forward_dwt formatter_on = Done tt m'
    /\ writes m' = writes formatter_on ++ [RegWrite CoreDebug_DEMCR demcr;
                                           RegWrite ITM_LAR 0xC5ACCE55;
                                           RegWrite ITM_TCR tcr;
                                           RegWrite ITM_TER 0xFFFFFFFF]
    /\ regs m' ITM_LAR = 0xC5ACCE55
    /\ (forall r : reg, ~ In r ITMSetup_regs -> regs m' r = regs formatter_on r).
Proof.
  apply (ITMSetup_trace cm3 forward_dwt formatter_on). reflexivity.
Defined.

(** X4. For a trace port width in [1,32], [TpiuSetup] makes five register
    writes and no other, in the order [DEMCR], [ACPR], [SPPR], [CSPSR],
    [FFCR]; every other register keeps its contents. *)
Theorem TpiuSetup_trace (P : platform) (o : TpiuOptions) (m : machine) :
  1 <= TracePortWidth o <= 32 ->
  exists (m' : machine) (demcr acpr sppr cspsr ffcr : Z),
    TpiuSetup P o m = Done tt m'
    /\ writes m' = writes m ++ [RegWrite CoreDebug_DEMCR demcr;
                                RegWrite TPI_ACPR acpr;
                                RegWrite TPI_SPPR sppr;
                                RegWrite TPI_CSPSR cspsr;
                                RegWrite TPI_FFCR ffcr]
    /\ (forall r : reg, ~ In r TpiuSetup_regs -> regs m' r = regs m r).
Proof.
  intros Hw. exists (after_TpiuSetup P o m). do 5 eexists.
  split; [now apply TpiuSetup_run|]. split; [reflexivity|].
  intros r Hr. unfold after_TpiuSetup, TpiuSetup_regs in *. cbn [regs].
  reg_cases r; exfalso; apply Hr; cbn [In]; tauto.
Qed.

Lemma TpiuSetup_trace_witness :
  exists (m' : machine) (demcr acpr sppr cspsr ffcr : Z),
    TpiuSetup cm3 parallel_4 port5_off = Done tt m'
    /\ writes m' = writes port5_off ++ [RegWrite CoreDebug_DEMCR demcr;
                                        RegWrite TPI_ACPR acpr;
                                        RegWrite TPI_SPPR sppr;
                                        RegWrite TPI_CSPSR cspsr;
                                        RegWrite TPI_FFCR ffcr]
    /\ (forall r : reg, ~ In r TpiuSetup_regs -> regs m' r = regs port5_off r).
Proof.
  apply (TpiuSetup_trace cm3 parallel_4 port5_off). cbn. lia.
Defined.

(** X5. [DWTSetup] leaves every register but [DEMCR], [DWT->LAR] and
    [DWT->CTRL] as it was, the comparators among them, and [DWT->LAR] holds
    the unlock value. *)
Theorem DWTSetup_frame (P : platform) (o : DWTOptions) (m : machine) :
  DWT_CTRL_layout_ok P = true ->
  exists m' : machine,
    DWTSetup P o m = Done tt m'
    /\ regs m' DWT_LAR = 0xC5ACCE55
    /\ (forall r : reg, ~ In r DWTSetup_regs -> regs m' r = regs m r).
Proof.
  intros Hok. exists (after_DWTSetup P o m).
  split; [now apply DWTSetup_run|]. split; [reflexivity|].
  intros r Hr. unfold after_DWTSetup, DWTSetup_regs in *. cbn [regs].
  reg_cases r; exfalso; apply Hr; cbn [In]; tauto.
Qed.

Lemma DWTSetup_frame_witness :
  exists m' : machine,
    DWTSetup cm3 pc_sampling port5_off = Done tt m'
    /\ regs m' DWT_LAR = 0xC5ACCE55
    /\ (forall r : reg, ~ In r DWTSetup_regs -> regs m' r = regs port5_off r).
Proof.
  apply (DWTSetup_frame cm3 pc_sampling port5_off). reflexivity.
Defined.

(** ** The setup functions: calling them again, and in another order *)

(** X6. A second [DWTSetup] overwrites the first: the registers after the
    two calls are those after the second call alone. *)
Theorem DWTSetup_overwrites (P : platform) (o1 o2 : DWTOptions) (m : machine) :
  DWT_CTRL_layout_ok P = true ->
  exists m12 m2 : machine,
    (DWTSetup P o1 ;; DWTSetup P o2) m = Done tt m12
    /\ DWTSetup P o2 m = Done tt m2
    /\ forall r : reg, regs m12 r = regs m2 r.
Proof.
  intros Hok. do 2 eexists. unfold bind. rewrite !DWTSetup_run by assumption.
  split; [reflexivity|]. split; [reflexivity|].
  intros r. unfold after_DWTSetup. cbn [regs].
  reg_cases r. apply trcena_twice.
Qed.

Lemma DWTSetup_overwrites_witness :
  exists m12 m2 : machine,
    (DWTSetup cm3 pc_sampling ;; DWTSetup cm3 no_events) idle_machine = Done tt m12
    /\ DWTSetup cm3 no_events idle_machine = Done tt m2
    /\ forall r : reg, regs m12 r = regs m2 r.
Proof.
  apply (DWTSetup_overwrites cm3 pc_sampling no_events idle_machine). reflexivity.
Defined.

(** X7. A second [ITMSetup] overwrites the first: the registers after the
    two calls are those after the second call alone. *)
Theorem ITMSetup_overwrites (P : platform) (o1 o2 : ITMOptions) (m : machine) :
  ITM_TCR_layout_ok P = true ->
  exists m12 m2 : machine,
    (ITMSetup P o1 ;; ITMSetup P o2) m = Done tt m12
    /\ ITMSetup P o2 m = Done tt m2
    /\ forall r : reg, regs m12 r = regs m2 r.
Proof.
  intros Hok. do 2 eexists. unfold bind. rewrite !ITMSetup_run by assumption.
  split; [reflexivity|]. split; [reflexivity|].
  intros r. unfold after_ITMSetup. cbn [regs].
  reg_cases r. apply trcena_twice.
Qed.

Lemma ITMSetup_overwrites_witness :
  exists m12 m2 : machine,
    (ITMSetup cm3 forward_dwt ;; ITMSetup cm3 only_port_0) idle_machine
      = Done tt m12
    /\ ITMSetup cm3 only_port_0 idle_machine = Done tt m2
    /\ forall r : reg, regs m12 r = regs m2 r.
Proof.
  apply (ITMSetup_overwrites cm3 forward_dwt only_port_0 idle_machine).
  reflexivity.
Defined.

Lemma ffcr_set_after (f mask : Z) (b : bool) :
  u32 (Z.lor (if b then u32 (Z.lor f mask)
              else u32 (Z.land f (u32 (Z.lnot mask)))) mask)
  = u32 (Z.lor f mask).
Proof. destruct b; bits. Qed.

Lemma ffcr_clear_after (f mask : Z) (b : bool) :
  u32 (Z.land (if b then u32 (Z.lor f mask)
               else u32 (Z.land f (u32 (Z.lnot mask)))) (u32 (Z.lnot mask)))
  = u32 (Z.land f (u32 (Z.lnot mask))).
Proof. destruct b; bits. Qed.

(** X8. A second [TpiuSetup] overwrites the first, the formatting bit
    included: the registers after the two calls are those after the second
    call alone. *)
Theorem TpiuSetup_overwrites (P : platform) (o1 o2 : TpiuOptions) (m : machine) :
  1 <= TracePortWidth o1 <= 32 ->
  1 <= TracePortWidth o2 <= 32 ->
  exists m12 m2 : machine,
    (TpiuSetup P o1 ;; TpiuSetup P o2) m = Done tt m12
    /\ TpiuSetup P o2 m = Done tt m2
    /\ forall r : reg, regs m12 r = regs m2 r.
Proof.
  intros H1 H2. do 2 eexists. unfold bind. rewrite !TpiuSetup_run by assumption.
  split; [reflexivity|]. split; [reflexivity|].
  intros r. unfold after_TpiuSetup. cbn [regs].
  reg_cases r.
  - apply trcena_twice.
  - destruct (FormattingEnabled o2).
    + apply ffcr_set_after.
    + apply ffcr_clear_after.
Qed.

Lemma TpiuSetup_overwrites_witness :
  exists m12 m2 : machine,
    (TpiuSetup cm3 parallel_4 ;; TpiuSetup cm3 swo_uart) formatter_on
      = Done tt m12
    /\ TpiuSetup cm3 swo_uart formatter_on = Done tt m2
    /\ forall r : reg, regs m12 r = regs m2 r.
Proof.
  apply (TpiuSetup_overwrites cm3 parallel_4 swo_uart formatter_on); cbn; lia.
Defined.

Lemma bind_Done_l {A B : Type} (c : M A) (k : A -> M B) (m m1 : machine) (a : A) :
  c m = Done a m1 -> bind c k m = k a m1.
Proof. intros H. unfold bind. now rewrite H. Qed.

(** Runs a sequence of setup calls. *)
Ltac run_setups :=
  repeat first
    [ erewrite bind_Done_l
        by (first [apply ITMSetup_run | apply DWTSetup_run | apply TpiuSetup_run];
            assumption)
    | rewrite ITMSetup_run by assumption
    | rewrite DWTSetup_run by assumption
    | rewrite TpiuSetup_run by assumption ].

(** X9. The three setup functions may be called in any order: any two of
    them commute on the registers, and the order of the README (TPIU, ITM,
    DWT) gives the registers of the opposite order. *)
Theorem setups_commute (P : platform)
  (ot : TpiuOptions) (oi : ITMOptions) (od : DWTOptions) (m : machine) :
  ITM_TCR_layout_ok P = true ->
  DWT_CTRL_layout_ok P = true ->
  1 <= TracePortWidth ot <= 32 ->
  (exists m1 m2 : machine,
     (ITMSetup P oi ;; DWTSetup P od) m = Done tt m1
     /\ (DWTSetup P od ;; ITMSetup P oi) m = Done tt m2
     /\ forall r : reg, regs m1 r = regs m2 r)
  /\ (exists m1 m2 : machine,
        (TpiuSetup P ot ;; ITMSetup P oi) m = Done tt m1
        /\ (ITMSetup P oi ;; TpiuSetup P ot) m = Done tt m2
        /\ forall r : reg, regs m1 r = regs m2 r)
  /\ (exists m1 m2 : machine,
        (TpiuSetup P ot ;; DWTSetup P od) m = Done tt m1
        /\ (DWTSetup P od ;; TpiuSetup P ot) m = Done tt m2
        /\ forall r : reg, regs m1 r = regs m2 r)
  /\ (exists m1 m2 : machine,
        (TpiuSetup P ot ;; ITMSetup P oi ;; DWTSetup P od) m = Done tt m1
        /\ (DWTSetup P od ;; ITMSetup P oi ;; TpiuSetup P ot) m = Done tt m2
        /\ forall r : reg, regs m1 r = regs m2 r).
Proof.
  intros Hi Hd Hw.
  repeat split; do 2 eexists; run_setups;
    (split; [reflexivity|]); (split; [reflexivity|]);
    intros r; unfold after_ITMSetup, after_DWTSetup, after_TpiuSetup;
    cbn [regs]; reg_cases r;
    rewrite ?trcena_twice; reflexivity.
Qed.

Lemma setups_commute_witness :
  (exists m1 m2 : machine,
     (ITMSetup cm3 forward_dwt ;; DWTSetup cm3 pc_sampling) formatter_on
       = Done tt m1
     /\ (DWTSetup cm3 pc_sampling ;; ITMSetup cm3 forward_dwt) formatter_on
        = Done tt m2
     /\ forall r : reg, regs m1 r = regs m2 r)
  /\ (exists m1 m2 : machine,
        (TpiuSetup cm3 swo_uart ;; ITMSetup cm3 forward_dwt) formatter_on
          = Done tt m1
        /\ (ITMSetup cm3 forward_dwt ;; TpiuSetup cm3 swo_uart) formatter_on
           = Done tt m2
        /\ forall r : reg, regs m1 r = regs m2 r)
  /\ (exists m1 m2 : machine,
        (TpiuSetup cm3 swo_uart ;; DWTSetup cm3 pc_sampling) formatter_on
          = Done tt m1
        /\ (DWTSetup cm3 pc_sampling ;; TpiuSetup cm3 swo_uart) formatter_on
           = Done tt m2
        /\ forall r : reg, regs m1 r = regs m2 r)
  /\ (exists m1 m2 : machine,
        (TpiuSetup cm3 swo_uart ;; ITMSetup cm3 forward_dwt ;;
         DWTSetup cm3 pc_sampling) formatter_on = Done tt m1
        /\ (DWTSetup cm3 pc_sampling ;; ITMSetup cm3 forward_dwt ;;
            TpiuSetup cm3 swo_uart) formatter_on = Done tt m2
        /\ forall r : reg, regs m1 r = regs m2 r).
Proof.
  apply (setups_commute cm3 swo_uart forward_dwt pc_sampling formatter_on).
  - reflexivity.
  - reflexivity.
  - cbn. lia.
Defined.

Lemma trcena_bits (d pos i : Z) :
  0 <= pos < 32 -> 0 <= i < 32 ->
  Z.testbit (u32 (Z.lor d (Z.shiftl 1 pos))) i = Z.testbit d i || (i =? pos).
Proof.
  intros Hpos Hi. rewrite u32_testbit, testbit_set_bit by lia.
  assert ((i <? 32) = true) as -> by (apply Z.ltb_lt; lia). reflexivity.
Qed.

(** X10. Each of the three setup functions sets the trace-enable bit of
    [CoreDebug->DEMCR] and keeps the other 31 bits of that register. *)
Theorem setups_assert_TRCENA (P : platform)
  (ot : TpiuOptions) (oi : ITMOptions) (od : DWTOptions) (m : machine) :
  0 <= CoreDebug_DEMCR_TRCENA_Pos P < 32 ->
  ITM_TCR_layout_ok P = true ->
  DWT_CTRL_layout_ok P = true ->
  1 <= TracePortWidth ot <= 32 ->
  (exists m' : machine, TpiuSetup P ot m = Done tt m' /\ TRCENA_set P m m')
  /\ (exists m' : machine, ITMSetup P oi m = Done tt m' /\ TRCENA_set P m m')
  /\ (exists m' : machine, DWTSetup P od m = Done tt m' /\ TRCENA_set P m m').
Proof.
  intros Hpos Hi Hd Hw.
  assert (Hbits : forall m' : machine,
    regs m' CoreDebug_DEMCR
      = u32 (Z.lor (regs m CoreDebug_DEMCR) (CoreDebug_DEMCR_TRCENA_Msk P)) ->
    TRCENA_set P m m').
  { intros m' E. unfold TRCENA_set. rewrite E.
    unfold CoreDebug_DEMCR_TRCENA_Msk. split.
    - rewrite trcena_bits, Z.eqb_refl by lia. apply orb_true_r.
    - intros i Hi32 Hne. rewrite trcena_bits by lia.
      assert ((i =? CoreDebug_DEMCR_TRCENA_Pos P) = false) as ->
        by (apply Z.eqb_neq; lia).
      apply orb_false_r. }
  split; [|split].
  - exists (after_TpiuSetup P ot m).
    split; [now apply TpiuSetup_run|]. now apply Hbits.
  - exists (after_ITMSetup P oi m).
    split; [now apply ITMSetup_run|]. now apply Hbits.
  - exists (after_DWTSetup P od m).
    split; [now apply DWTSetup_run|]. now apply Hbits.
Qed.

Lemma setups_assert_TRCENA_witness :
  (exists m' : machine,
     TpiuSetup cm3 swo_uart formatter_on = Done tt m'
     /\ TRCENA_set cm3 formatter_on m')
  /\ (exists m' : machine,
        ITMSetup cm3 forward_dwt formatter_on = Done tt m'
        /\ TRCENA_set cm3 formatter_on m')
  /\ (exists m' : machine,
        DWTSetup cm3 pc_sampling formatter_on = Done tt m'
        /\ TRCENA_set cm3 formatter_on m').
Proof.
  apply (setups_assert_TRCENA cm3 swo_uart forward_dwt pc_sampling formatter_on).
  - cbn. lia.
  - reflexivity.
  - reflexivity.
  - cbn. lia.
Defined.

(** ** Scalar writes and the busy-wait *)

Section BusyWait.

Variable port : Z.
Hypothesis port_ok : in_word port = true.

Lemma wait_port_step (fuel : nat) (m : machine) :
  wait_port (S fuel) port m
  = if fifo m port (polls m) =? 0
    then wait_port fuel port (advance (S (polls m)) [] m)
    else Done tt (advance (S (polls m)) [] m).
Proof.
  cbn [wait_port]. unfold bind, read_port, port_index, bind. rewrite port_ok.
  cbn [ret]. unfold advance. rewrite app_nil_r.
  now destruct (fifo m port (polls m) =? 0).
Qed.

(** The wait makes one status read after another and ends with the first
    that finds the FIFO ready. *)
Lemma wait_port_exact (d : nat) :
  forall (m : machine) (fuel : nat),
    first_ready m port (polls m) (polls m + d) ->
    wait_port fuel port m
    = if (fuel <=? d)%nat then Spinning
      else Done tt (advance (S (polls m + d)) [] m).
Proof.
  induction d as [|d IH]; intros m fuel (Hle & Hready & Hbusy).
  - destruct fuel as [|fuel]; [reflexivity|].
    rewrite wait_port_step. rewrite Nat.add_0_r in *.
    apply Z.eqb_neq in Hready. now rewrite Hready.
  - destruct fuel as [|fuel]; [reflexivity|].
    rewrite wait_port_step, (Hbusy (polls m)) by lia. cbn [Z.eqb].
    rewrite (IH (advance (S (polls m)) [] m) fuel).
    + cbn [advance polls]. rewrite Nat.add_succ_comm.
      change (S fuel <=? S d)%nat with (fuel <=? d)%nat.
      destruct (fuel <=? d)%nat; [reflexivity|].
      unfold advance. cbn. now rewrite !app_nil_r.
    + cbn [advance polls fifo]. rewrite Nat.add_succ_comm.
      repeat split; [lia | assumption |]. intros t Ht. apply Hbusy. lia.
Qed.

Lemma wait_port_blocked_from (fuel : nat) :
  forall m : machine,
    (forall t : nat, (polls m <= t)%nat -> fifo m port t = 0) ->
    wait_port fuel port m = Spinning.
Proof.
  induction fuel as [|fuel IH]; intros m Hbusy; [reflexivity|].
  rewrite wait_port_step, (Hbusy (polls m)) by lia. cbn [Z.eqb].
  apply IH. intros t Ht. cbn [advance polls fifo] in *. apply Hbusy. lia.
Qed.

End BusyWait.

(** A wait that ends has read the status up to the first ready one. *)
Lemma wait_port_first_ready (port : Z) (fuel : nat) :
  forall m m' : machine,
    wait_port fuel port m = Done tt m' ->
    exists n : nat,
      first_ready m port (polls m) n /\ m' = advance (S n) [] m.
Proof.
  induction fuel as [|fuel IH]; intros m m' H; [discriminate|].
  destruct (in_word port) eqn:Hport.
  - rewrite (wait_port_step port Hport) in H.
    destruct (Z.eqb_spec (fifo m port (polls m)) 0) as [Hbusy|Hready].
    + apply IH in H as (n & (Hle & Hr & Hb) & ->).
      cbn [advance polls fifo] in *. exists n. split.
      * repeat split; [lia | assumption |]. intros t Ht.
        destruct (Nat.eq_dec t (polls m)) as [->|Hne]; [assumption|].
        apply Hb. lia.
      * unfold advance. cbn. now rewrite !app_nil_r.
    + injection H as <-. exists (polls m). split; [|reflexivity].
      repeat split; [lia | assumption |]. intros t Ht. lia.
  - cbn [wait_port] in H. unfold bind, read_port, port_index, bind in H.
    rewrite Hport in H. discriminate.
Qed.

Lemma ITMWrite_unfold (w : width) (P : platform) (fuel : nat) (port value : Z)
  (m : machine) :
  ITMWrite w P fuel port value m
  = (enabled <- ITMIsPortEnabled P port ;;
     if negb enabled then ret tt
     else wait_port fuel port ;; write_port port w value) m.
Proof. now destruct w. Qed.

(** X11. On an enabled port whose FIFO is first found ready at the [n]-th
    status read, a scalar write of any width spins for as long as the fuel
    does not reach that read, and otherwise returns having made these
    status reads and the single write of the value, cut to the width. *)
Theorem scalar_write_exact (w : width) (P : platform) (port value : Z)
  (m : machine) (n : nat) :
  ITMIsPortEnabled P port m = Done true m ->
  0 <= port < 32 ->
  first_ready m port (polls m) n ->
  forall fuel : nat,
    ITMWrite w P fuel port value m
    = if (fuel <=? n - polls m)%nat then Spinning
      else Done tt (advance (S n) [StimWrite port w (wrap_width w value)] m).
Proof.
  intros Henabled Hport Hready fuel. apply in_word_spec in Hport.
  rewrite ITMWrite_unfold. unfold bind at 1. rewrite Henabled. cbn [negb].
  unfold bind.
  assert (Hn : n = (polls m + (n - polls m))%nat) by (destruct Hready; lia).
  rewrite (wait_port_exact port Hport (n - polls m)) by (now rewrite <- Hn).
  rewrite <- Hn. destruct (fuel <=? n - polls m)%nat; [reflexivity|].
  unfold write_port, bind, port_index. rewrite Hport. cbn [ret].
  unfold advance. cbn. now rewrite app_nil_r.
Qed.

Lemma tracing_first_ready (port : Z) : first_ready tracing port 0 2.
Proof.
  repeat split; [lia | discriminate |].
  intros t Ht. assert (t = 0 \/ t = 1)%nat as [-> | ->] by lia; reflexivity.
Qed.

Lemma scalar_write_exact_witness :
  ITMWrite16 cm3 2 4 0x12345 tracing = Spinning
  /\ ITMWrite16 cm3 3 4 0x12345 tracing
     = Done tt (advance 3 [StimWrite 4 W16 0x2345] tracing).
Proof.
  assert (Henabled : ITMIsPortEnabled cm3 4 tracing = Done true tracing)
    by reflexivity.
  assert (Hport : 0 <= 4 < 32) by lia.
  split.
  - exact (scalar_write_exact W16 cm3 4 0x12345 tracing 2 Henabled Hport
             (tracing_first_ready 4) 2).
  - exact (scalar_write_exact W16 cm3 4 0x12345 tracing 2 Henabled Hport
             (tracing_first_ready 4) 3).
Defined.

(** X12. A scalar write on an enabled port that returns has found the FIFO
    ready: it has read the status up to the first ready one, then made its
    single write, and changed no register. *)
Theorem scalar_write_Done (w : width) (P : platform) (fuel : nat)
  (port value : Z) (m m' : machine) :
  ITMIsPortEnabled P port m = Done true m ->
  ITMWrite w P fuel port value m = Done tt m' ->
  exists n : nat,
    first_ready m port (polls m) n
    /\ m' = advance (S n) [StimWrite port w (wrap_width w value)] m.
Proof.
  intros Henabled Hrun.
  rewrite ITMWrite_unfold in Hrun. unfold bind at 1 in Hrun.
  rewrite Henabled in Hrun. cbn [negb] in Hrun.
  apply bind_Done in Hrun as ([] & m1 & Hwait & Hwrite).
  apply wait_port_first_ready in Hwait as (n & Hready & ->).
  exists n. split; [assumption|].
  unfold write_port, bind, port_index in Hwrite.
  destruct (in_word port); [|discriminate]. cbn [ret] in Hwrite.
  injection Hwrite as <-. unfold advance. cbn. now rewrite app_nil_r.
Qed.

Lemma scalar_write_Done_witness :
  ITMWrite8 cm3 3 4 0x58 tracing
    = Done tt (advance 3 [StimWrite 4 W8 0x58] tracing)
  /\ exists n : nat,
       first_ready tracing 4 (polls tracing) n
       /\ advance 3 [StimWrite 4 W8 0x58] tracing
          = advance (S n) [StimWrite 4 W8 (wrap_width W8 0x58)] tracing.
Proof.
  split; [reflexivity|].
  apply (scalar_write_Done W8 cm3 3 4 0x58 tracing
           (advance 3 [StimWrite 4 W8 0x58] tracing));
    reflexivity.
Defined.

(** X13. The wait has no timeout: on an enabled port whose FIFO is never
    ready again, every scalar write and every write of a buffer that is not
    empty is still spinning however much fuel it is given. *)
Theorem writers_blocked (P : platform) (port : Z) (m : machine) :
  ITMIsPortEnabled P port m = Done true m ->
  0 <= port < 32 ->
  (forall t : nat, (polls m <= t)%nat -> fifo m port t = 0) ->
  forall (fuel : nat) (w : width) (value : Z) (b : Z) (buffer : list Z),
    ITMWrite w P fuel port value m = Spinning
    /\ ITMWriteBuffer P fuel port (b :: buffer) (length (b :: buffer)) m
       = Spinning.
Proof.
  intros Henabled Hport Hbusy fuel w value b buffer.
  apply in_word_spec in Hport. split.
  - rewrite ITMWrite_unfold. unfold bind at 1. rewrite Henabled. cbn [negb].
    unfold bind. now rewrite wait_port_blocked_from.
  - unfold ITMWriteBuffer. unfold bind at 1. rewrite Henabled. cbn [negb].
    pose proof (wait_port_blocked_from port Hport fuel m Hbusy) as Hwait.
    destruct buffer as [|b1 [|b2 [|b3 tl]]];
      cbv [write_words write_halfwords write_bytes bind memcpy length Nat.leb ret];
      now rewrite Hwait.
Qed.

Lemma writers_blocked_witness :
  ITMWrite W32 cm3 1000 4 7 stalled = Spinning
  /\ ITMWriteBuffer cm3 1000 4 [1; 2; 3] (length [1; 2; 3]) stalled = Spinning.
Proof.
  apply (writers_blocked cm3 4 stalled).
  - reflexivity.
  - lia.
  - reflexivity.
Defined.

(** ** Buffer writes as sequences of writes *)

(** The port-enable test looks at the registers only. *)
Lemma ITMIsPortEnabled_regs (P : platform) (port : Z) (m m1 : machine) :
  regs m1 = regs m ->
  ITMIsPortEnabled P port m1
  = match ITMIsPortEnabled P port m with
    | Done b _ => Done b m1
    | Spinning => Spinning
    | Undefined => Undefined
    end.
Proof.
  intros H. unfold ITMIsPortEnabled, bind, read, shl, ret, undefined.
  cbv beta iota. rewrite H.
  destruct (negb _); [|reflexivity].
  cbv beta iota. rewrite H.
  destruct (in_word port); [reflexivity|].
  now destruct (oversized_shift P).
Qed.

(** On a whole number of words the first loop leaves no byte and changes no
    register. *)
Lemma write_words_multiple (port : Z) (fuel k : nat) :
  forall (a : list Z) (m m1 : machine) (r : list Z * nat),
    length a = (k * 4)%nat ->
    write_words fuel port a (k * 4) m = Done r m1 ->
    snd r = 0%nat /\ regs m1 = regs m.
Proof.
  induction k as [|k IH]; intros a m m1 r Hlen Hrun.
  - injection Hrun as <- <-. now split.
  - destruct a as [|b0 [|b1 [|b2 [|b3 a]]]]; try discriminate.
    change (write_words fuel port (b0 :: b1 :: b2 :: b3 :: a) (S k * 4) m)
      with ((wait_port fuel port ;;
             write_port port W32 (le_combine [b0; b1; b2; b3]) ;;
             write_words fuel port a (k * 4)) m) in Hrun.
    apply chunk_Done in Hrun as [n Hrun].
    apply IH in Hrun as [Hr Hregs]; [|cbn in Hlen; lia].
    now split.
Qed.

Lemma write_words_app (port : Z) (fuel k : nat) :
  forall (a b : list Z) (n : nat) (m : machine),
    length a = (k * 4)%nat ->
    write_words fuel port (a ++ b) (k * 4 + n) m
    = match write_words fuel port a (k * 4) m with
      | Done _ m1 => write_words fuel port b n m1
      | Spinning => Spinning
      | Undefined => Undefined
      end.
Proof.
  induction k as [|k IH]; intros a b n m Hlen.
  - destruct a; [reflexivity|discriminate].
  - destruct a as [|b0 [|b1 [|b2 [|b3 a]]]]; try discriminate.
    change (write_words fuel port ((b0 :: b1 :: b2 :: b3 :: a) ++ b)
              (S k * 4 + n) m)
      with ((wait_port fuel port ;;
             write_port port W32 (le_combine [b0; b1; b2; b3]) ;;
             write_words fuel port (a ++ b) (k * 4 + n)) m).
    change (write_words fuel port (b0 :: b1 :: b2 :: b3 :: a) (S k * 4) m)
      with ((wait_port fuel port ;;
             write_port port W32 (le_combine [b0; b1; b2; b3]) ;;
             write_words fuel port a (k * 4)) m).
    unfold bind.
    destruct (wait_port fuel port m) as [[] m1| |]; try reflexivity.
    destruct (write_port port W32 _ m1) as [[] m2| |]; try reflexivity.
    apply IH. cbn in Hlen. lia.
Qed.

Lemma ITMWriteBuffer_unfold (P : platform) (fuel : nat) (port : Z)
  (buffer : list Z) (size : nat) (m : machine) :
  ITMWriteBuffer P fuel port buffer size m
  = match ITMIsPortEnabled P port m with
    | Done true m' =>
        (r <- write_words fuel port buffer size ;;
         let '(buf8, size) := r in
         r <- write_halfwords fuel port buf8 size ;;
         let '(buf8, size) := r in
         write_bytes fuel port buf8 size) m'
    | Done false m' => Done tt m'
    | Spinning => Spinning
    | Undefined => Undefined
    end.
Proof.
  unfold ITMWriteBuffer. unfold bind at 1.
  now destruct (ITMIsPortEnabled P port m) as [[|] m'| |].
Qed.

Lemma write_words_app_then {A : Type} (port : Z) (fuel k : nat)
  (a b : list Z) (n : nat) (K : list Z * nat -> M A) (m : machine) :
  length a = (k * 4)%nat ->
  bind (write_words fuel port (a ++ b) (k * 4 + n)) K m
  = match write_words fuel port a (k * 4) m with
    | Done _ m1 => bind (write_words fuel port b n) K m1
    | Spinning => Spinning
    | Undefined => Undefined
    end.
Proof.
  intros Hlen. unfold bind. rewrite write_words_app by assumption.
  now destruct (write_words fuel port a (k * 4) m).
Qed.

Lemma write_words_only (port : Z) (fuel k : nat) (a : list Z) (m : machine) :
  length a = (k * 4)%nat ->
  (r <- write_words fuel port a (k * 4) ;;
   let '(buf8, size) := r in
   r <- write_halfwords fuel port buf8 size ;;
   let '(buf8, size) := r in
   write_bytes fuel port buf8 size) m
  = match write_words fuel port a (k * 4) m with
    | Done r m1 => if Nat.eqb (snd r) 0 then Done tt m1 else Undefined
    | Spinning => Spinning
    | Undefined => Undefined
    end.
Proof.
  intros Hlen. unfold bind at 1.
  destruct (write_words fuel port a (k * 4) m) as [[buf8 size] m1| |] eqn:W;
    try reflexivity.
  apply write_words_multiple in W as [Hsize _]; [|assumption].
  cbn [snd] in *. now subst size.
Qed.

(** X14. A buffer may be written in pieces cut at a multiple of four bytes:
    one call of [ITMWriteBuffer] on the whole does what a call on the first
    piece followed by a call on the second does, whatever the port, the
    registers and the FIFO. *)
Theorem ITMWriteBuffer_split (P : platform) (fuel : nat) (port : Z)
  (a b : list Z) (m : machine) :
  (length a mod 4 = 0)%nat ->
  ITMWriteBuffer P fuel port (a ++ b) (length a + length b) m
  = (ITMWriteBuffer P fuel port a (length a) ;;
     ITMWriteBuffer P fuel port b (length b)) m.
Proof.
  intros Hmod.
  assert (Hk : length a = (length a / 4 * 4)%nat).
  { pose proof (Nat.div_mod_eq (length a) 4). lia. }
  set (k := (length a / 4)%nat) in *. rewrite Hk. clearbody k.
  unfold bind at 1. rewrite 2 ITMWriteBuffer_unfold.
  destruct (ITMIsPortEnabled P port m) as [enabled m0| |] eqn:E;
    try reflexivity.
  pose proof (ITMIsPortEnabled_pure P port m m0 enabled E) as ->.
  destruct enabled.
  - rewrite write_words_app_then, write_words_only by assumption.
    destruct (write_words fuel port a (k * 4) m) as [[buf8 size] m1| |] eqn:W;
      try reflexivity.
    apply write_words_multiple in W as [Hsize Hregs]; [|assumption].
    cbn [snd] in *. subst size. cbn [Nat.eqb].
    rewrite ITMWriteBuffer_unfold.
    now rewrite (ITMIsPortEnabled_regs P port m m1 Hregs), E.
  - now rewrite ITMWriteBuffer_unfold, E.
Qed.

Lemma ITMWriteBuffer_split_witness :
  ITMWriteBuffer cm3 3 4 ([1; 2; 3; 4] ++ [5; 6; 7]) (4 + 3) tracing
  = (ITMWriteBuffer cm3 3 4 [1; 2; 3; 4] 4 ;;
     ITMWriteBuffer cm3 3 4 [5; 6; 7] 3) tracing.
Proof.
  apply (ITMWriteBuffer_split cm3 3 4 [1; 2; 3; 4] [5; 6; 7] tracing).
  reflexivity.
Defined.

(** X15. A buffer of four, two or one bytes is written as the scalar write
    of that width does it: [ITMWriteBuffer] on it is [ITMWrite32],
    [ITMWrite16] or [ITMWrite8] on its bytes taken least significant
    first. *)
Theorem ITMWriteBuffer_one_chunk (P : platform) (fuel : nat) (port : Z)
  (b0 b1 b2 b3 : Z) (m : machine) :
  ITMWriteBuffer P fuel port [b0; b1; b2; b3] 4 m
    = ITMWrite32 P fuel port (le_combine [b0; b1; b2; b3]) m
  /\ ITMWriteBuffer P fuel port [b0; b1] 2 m
     = ITMWrite16 P fuel port (le_combine [b0; b1]) m
  /\ ITMWriteBuffer P fuel port [b0] 1 m = ITMWrite8 P fuel port b0 m.
Proof.
  assert (E1 : b0 = le_combine [b0]).
  { cbn [le_combine]. rewrite Z.shiftl_0_l. symmetry. apply Z.lor_0_r. }
  split; [|split].
  3: rewrite E1 at 2.
  all: unfold ITMWriteBuffer, ITMWrite32, ITMWrite16, ITMWrite8;
    unfold bind at 1 4;
    (destruct (ITMIsPortEnabled P port m) as [[|] m0| |]; try reflexivity);
    cbv [write_words write_halfwords write_bytes bind memcpy length Nat.leb
         ret negb firstn skipn];
    (destruct (wait_port fuel port m0) as [[] m1| |]; try reflexivity);
    match goal with
    | |- context [write_port ?p ?w ?v m1] =>
        now destruct (write_port p w v m1) as [[] m2| |]
    end.
Qed.

(** ** Comparators: the function word, and one comparator beside another *)

Lemma testbit_15 (k : Z) : Z.testbit 15 k = (0 <=? k) && (k <? 4).
Proof.
  change 15 with (Z.ones 4).
  destruct (Z.leb_spec 0 k); [|now rewrite Z.testbit_neg_r by lia].
  cbn [andb]. now rewrite Z.testbit_ones_nonneg by lia.
Qed.

(** Masking with [DWT_FUNCTION_FUNCTION_Msk] cuts the function code to four
    bits. *)
Lemma function_field (function pos : Z) :
  0 <= pos -> pos + 4 <= 32 ->
  Z.land (u32 (s32 (Z.shiftl function pos))) (Z.shiftl 15 pos)
  = u32 (s32 (Z.shiftl (function mod 2 ^ 4) pos)).
Proof.
  intros Hpos Hfit. rewrite !u32_s32. apply Z.bits_inj'. intros i Hi.
  rewrite Z.land_spec, !u32_testbit, !Z.shiftl_spec, testbit_15 by lia.
  destruct (Z.leb_spec 0 (i - pos)); cbn [andb].
  - destruct (Z.ltb_spec (i - pos) 4).
    + rewrite Z.mod_pow2_bits_low by lia.
      assert ((i <? 32) = true) as -> by (apply Z.ltb_lt; lia).
      now rewrite andb_true_r.
    + rewrite Z.mod_pow2_bits_high by lia. now rewrite !andb_false_r.
  - rewrite !(Z.testbit_neg_r _ (i - pos)) by lia. now rewrite !andb_false_r.
Qed.

Lemma DWT_FUNCTION_apart_layout (C : cmsis) :
  DWT_FUNCTION_apart C = true ->
  DWT_FUNCTION_layout_ok C = true
  /\ 0 <= DWT_FUNCTION_FUNCTION_Pos C
  /\ DWT_FUNCTION_FUNCTION_Pos C + 4 <= 32.
Proof.
  unfold DWT_FUNCTION_apart, layout_ok, DWT_FUNCTION_layout_ok.
  rewrite andb_true_iff. intros [H _]. revert H.
  cbn [DWT_FUNCTION_fields forallb]. unfold placed. cbn [f_pos f_width].
  rewrite !andb_true_iff, !Z.leb_le, !Z.ltb_lt, !in_word_spec. lia.
Qed.

Lemma funcRaw_fields (C : cmsis) (emitRange : bool) (function : Z) :
  DWT_FUNCTION_apart C = true ->
  u32 (funcRaw C emitRange function)
  = u32 (word_of (DWT_FUNCTION_fields C emitRange function)).
Proof.
  intros Hok. apply DWT_FUNCTION_apart_layout in Hok as (_ & Hpos & Hfit).
  unfold funcRaw, DWT_FUNCTION_FUNCTION_Msk, word_of, DWT_FUNCTION_fields, encode.
  cbn [fold_left f_pos f_value]. rewrite function_field by assumption.
  reflexivity.
Qed.

Lemma DWT_FUNCTION_fits (C : cmsis) (emitRange : bool) (function : Z) :
  Forall fits (DWT_FUNCTION_fields C emitRange function).
Proof.
  unfold DWT_FUNCTION_fields.
  repeat (apply Forall_cons; [unfold fits; cbn [f_value f_width]|]);
    try apply Forall_nil.
  - apply Z.mod_pos_bound. lia.
  - destruct emitRange; cbn; lia.
Qed.

(** X16. The function word [DWTEnableComparator] writes holds the low four
    bits of the function code in the function field (a code above 15 is cut,
    it does not reach other bits), the emit-range flag in its bit, and no
    other bit. *)
Theorem DWTEnableComparator_function_word
  (P : platform) (i address ignoreBits : Z) (emitRange : bool) (function : Z)
  (m : machine) :
  DWT_FUNCTION_apart P = true ->
  0 <= i <= 3 ->
  exists m' : machine,
    DWTEnableComparator P i address ignoreBits emitRange function m = Done tt m'
    /\ extract (DWT_FUNCTION_FUNCTION_Pos P) 4 (regs m' (DWT_FUNCTION i))
       = function mod 2 ^ 4
    /\ Z.testbit (regs m' (DWT_FUNCTION i)) (DWT_FUNCTION_EMITRANGE_Pos P)
       = emitRange
    /\ forall j : Z,
         Z.testbit (regs m' (DWT_FUNCTION i)) j = true ->
         DWT_FUNCTION_FUNCTION_Pos P <= j < DWT_FUNCTION_FUNCTION_Pos P + 4
         \/ j = DWT_FUNCTION_EMITRANGE_Pos P.
Proof.
  intros Hok Hi.
  pose proof (DWT_FUNCTION_apart_layout P Hok) as (Hlay & _).
  eexists. split; [now apply DWTEnableComparator_run|].
  cbn [regs]. rewrite upd_same, funcRaw_fields by assumption.
  assert (Hl : layout_ok (DWT_FUNCTION_fields P emitRange function) = true)
    by exact Hok.
  pose proof (DWT_FUNCTION_fits P emitRange function) as Hf.
  split; [|split].
  - apply (u32_word_of_extract _ (mkField _ 4 _) Hl Hf). cbn. tauto.
  - apply (u32_word_of_flag _ _ _ Hl Hf). cbn. tauto.
  - intros j Hj. apply word_of_bit_in_field in Hj as (f & Hin & Hrange).
    + destruct Hin as [<- | [<- | []]]; cbn [f_pos f_width] in Hrange.
      * now left.
      * right. lia.
    + unfold layout_ok in Hl. now apply andb_true_iff in Hl as [Hl _].
    + exact Hf.
Qed.

Lemma DWTEnableComparator_function_word_witness :
  exists m' : machine,
    DWTEnableComparator cm3 2 0x20000000 2 true 0x35 idle_machine = Done tt m'
    /\ extract 0 4 (regs m' DWT_FUNCTION2) = 5
    /\ Z.testbit (regs m' DWT_FUNCTION2) 5 = true
    /\ forall j : Z,
         Z.testbit (regs m' DWT_FUNCTION2) j = true -> 0 <= j < 0 + 4 \/ j = 5.
Proof.
  apply (DWTEnableComparator_function_word
           cm3 2 0x20000000 2 true 0x35 idle_machine).
  - reflexivity.
  - lia.
Defined.

(** X17. A comparator is configured without touching another: for two
    different indices in [0,3], [DWTEnableComparator] and
    [DWTDisableComparator] on the first leave the address, mask and function
    registers of the second as they were. *)
Theorem comparators_independent
  (P : platform) (i j address ignoreBits : Z) (emitRange : bool) (function : Z)
  (m : machine) :
  DWT_FUNCTION_layout_ok P = true ->
  0 <= i <= 3 ->
  0 <= j <= 3 ->
  i <> j ->
  (exists m' : machine,
     DWTEnableComparator P i address ignoreBits emitRange function m = Done tt m'
     /\ regs m' (DWT_COMP j) = regs m (DWT_COMP j)
     /\ regs m' (DWT_MASK j) = regs m (DWT_MASK j)
     /\ regs m' (DWT_FUNCTION j) = regs m (DWT_FUNCTION j))
  /\ (exists m' : machine,
        DWTDisableComparator i m = Done tt m'
        /\ regs m' (DWT_COMP j) = regs m (DWT_COMP j)
        /\ regs m' (DWT_MASK j) = regs m (DWT_MASK j)
        /\ regs m' (DWT_FUNCTION j) = regs m (DWT_FUNCTION j)).
Proof.
  intros Hok Hi Hj Hne. split; eexists.
  - split; [now apply DWTEnableComparator_run|]. cbn [regs].
    destruct (small_index i Hi) as [-> | [-> | [-> | ->]]];
      destruct (small_index j Hj) as [-> | [-> | [-> | ->]]];
      try (exfalso; apply Hne; reflexivity);
      cbn [DWT_COMP DWT_MASK DWT_FUNCTION];
      now rewrite !upd_other by discriminate.
  - split; [now apply DWTDisableComparator_run|]. cbn [regs].
    destruct (small_index i Hi) as [-> | [-> | [-> | ->]]];
      destruct (small_index j Hj) as [-> | [-> | [-> | ->]]];
      try (exfalso; apply Hne; reflexivity);
      cbn [DWT_COMP DWT_MASK DWT_FUNCTION];
      now rewrite !upd_other by discriminate.
Qed.

Lemma comparators_independent_witness :
  (exists m' : machine,
     DWTEnableComparator cm3 1 0x20000000 2 true 5 idle_machine = Done tt m'
     /\ regs m' DWT_COMP0 = regs idle_machine DWT_COMP0
     /\ regs m' DWT_MASK0 = regs idle_machine DWT_MASK0
     /\ regs m' DWT_FUNCTION0 = regs idle_machine DWT_FUNCTION0)
  /\ (exists m' : machine,
        DWTDisableComparator 1 idle_machine = Done tt m'
        /\ regs m' DWT_COMP0 = regs idle_machine DWT_COMP0
        /\ regs m' DWT_MASK0 = regs idle_machine DWT_MASK0
        /\ regs m' DWT_FUNCTION0 = regs idle_machine DWT_FUNCTION0).
Proof.
  apply (comparators_independent cm3 1 0 0x20000000 2 true 5 idle_machine).
  - reflexivity.
  - lia.
  - lia.
  - discriminate.
Defined.

(** X18. Enabling a comparator overwrites what was there: after a
    [DWTDisableComparator] or an earlier [DWTEnableComparator] on the same
    index, [DWTEnableComparator] leaves the registers it would have left
    without the earlier call. *)
Theorem DWTEnableComparator_overwrites
  (P : platform) (i : Z) (a1 a2 b1 b2 : Z) (e1 e2 : bool) (f1 f2 : Z)
  (m : machine) :
  DWT_FUNCTION_layout_ok P = true ->
  0 <= i <= 3 ->
  exists m2 m12 m02 : machine,
    DWTEnableComparator P i a2 b2 e2 f2 m = Done tt m2
    /\ (DWTEnableComparator P i a1 b1 e1 f1 ;;
        DWTEnableComparator P i a2 b2 e2 f2) m = Done tt m12
    /\ (DWTDisableComparator i ;;
        DWTEnableComparator P i a2 b2 e2 f2) m = Done tt m02
    /\ forall r : reg, regs m12 r = regs m2 r /\ regs m02 r = regs m2 r.
Proof.
  intros Hok Hi. do 3 eexists.
  split; [now apply DWTEnableComparator_run|].
  split; [erewrite bind_Done_l by (now apply DWTEnableComparator_run);
          now apply DWTEnableComparator_run|].
  split; [erewrite bind_Done_l by (now apply DWTDisableComparator_run);
          now apply DWTEnableComparator_run|].
  intros r. cbn [regs].
  destruct (small_index i Hi) as [-> | [-> | [-> | ->]]];
    cbn [DWT_COMP DWT_MASK DWT_FUNCTION]; split; reg_cases r.
Qed.

Lemma DWTEnableComparator_overwrites_witness :
  exists m2 m12 m02 : machine,
    DWTEnableComparator cm3 3 0x20000100 0 false 6 idle_machine = Done tt m2
    /\ (DWTEnableComparator cm3 3 0x20000000 2 true 5 ;;
        DWTEnableComparator cm3 3 0x20000100 0 false 6) idle_machine
       = Done tt m12
    /\ (DWTDisableComparator 3 ;;
        DWTEnableComparator cm3 3 0x20000100 0 false 6) idle_machine
       = Done tt m02
    /\ forall r : reg, regs m12 r = regs m2 r /\ regs m02 r = regs m2 r.
Proof.
  apply (DWTEnableComparator_overwrites
           cm3 3 0x20000000 0x20000100 2 0 true false 5 6 idle_machine).
  - reflexivity.
  - lia.
Defined.

(** ** DWT setup with a prescaler outside [1,16] *)

(** A layout stays good when fields are made narrower in place. *)
Lemma layout_ok_narrow (fs gs : list field) :
  Forall2 (fun f g => f_pos f = f_pos g /\ 0 < f_width f <= f_width g) fs gs ->
  layout_ok gs = true -> layout_ok fs = true.
Proof.
  unfold layout_ok. rewrite !andb_true_iff.
  induction 1 as [|f g fs gs Hfg Hrest IH]; [tauto|].
  cbn [forallb disjoint]. rewrite !andb_true_iff.
  intros [[Hpg Hpgs] [Hag Hdgs]].
  destruct (IH (conj Hpgs Hdgs)) as [Hpfs Hdfs].
  apply placed_spec in Hpg. repeat split; try assumption.
  - unfold placed. rewrite !andb_true_iff, !Z.leb_le, Z.ltb_lt. lia.
  - clear IH Hpgs Hdgs Hpfs Hdfs. rewrite forallb_forall in Hag.
    apply forallb_forall. intros f' Hf'.
    induction Hrest as [|f1 g1 fs gs H1 Hrest IH]; [contradiction|].
    destruct Hf' as [<- | Hf'].
    + assert (Ha : apart g g1 = true) by (apply Hag; now left).
      apply apart_spec in Ha. unfold apart.
      rewrite orb_true_iff, !Z.leb_le. lia.
    + apply IH; [|assumption]. intros h Hh. apply Hag. now right.
Qed.

Lemma DWT_CTRL_wide_layout (C : cmsis) :
  DWT_CTRL_wide_ok C = true -> DWT_CTRL_layout_ok C = true.
Proof.
  apply layout_ok_narrow. unfold DWT_ctrl_fields, DWT_ctrl_fields_wide.
  repeat (apply Forall2_cons; [cbn [f_pos f_width]; lia|]).
  apply Forall2_nil.
Qed.

Lemma DWT_ctrl_wide_fits (C : cmsis) (o : DWTOptions) :
  1 <= SamplingPrescaler o <= 255 ->
  Forall fits (DWT_ctrl_fields_wide C o).
Proof.
  intros Hp. unfold DWT_ctrl_fields_wide.
  repeat (apply Forall_cons; [unfold fits; cbn [f_value f_width]|]);
    try apply Forall_nil.
  1-7: match goal with |- 0 <= b2i ?b < _ => destruct b; cbn; lia end.
  - destruct (SyncTap o); cbn; lia.
  - destruct (CycleTap o); cbn; lia.
  - cbn. lia.
  - cbn. lia.
Qed.

(** The word does not depend on the widths the fields are given. *)
Lemma DWT_ctrl_word_wide (C : cmsis) (o : DWTOptions) :
  DWT_ctrl_word C o = u32 (word_of (DWT_ctrl_fields_wide C o)).
Proof.
  unfold DWT_ctrl_word, word_of.
  cbn [DWT_ctrl_fields DWT_ctrl_fields_wide fold_left].
  unfold encode. cbn [f_pos f_value]. reflexivity.
Qed.

(** X19. With any sampling prescaler from 1 to 255, so also above the
    documented 16, the prescaler minus one stays within the eight bits from
    the prescaler position on; the seven flags, the cycle-counter enable and
    the two tap selectors of the word [DWTSetup] writes are still the ones
    given. *)
Theorem DWTSetup_prescaler_above_16 (P : platform) (o : DWTOptions) (m : machine) :
  DWT_CTRL_wide_ok P = true ->
  1 <= SamplingPrescaler o <= 255 ->
  exists m' : machine,
    DWTSetup P o m = Done tt m'
    /\ extract (DWT_CTRL_POSTPRESET_Pos P) 8 (regs m' DWT_CTRL)
       = SamplingPrescaler o - 1
    /\ Z.testbit (regs m' DWT_CTRL) (DWT_CTRL_FOLDEVTENA_Pos P)
       = FoldedInstructionCounterEvent o
    /\ Z.testbit (regs m' DWT_CTRL) (DWT_CTRL_LSUEVTENA_Pos P)
       = LSUCounterEvent o
    /\ Z.testbit (regs m' DWT_CTRL) (DWT_CTRL_SLEEPEVTENA_Pos P)
       = SleepCounterEvent o
    /\ Z.testbit (regs m' DWT_CTRL) (DWT_CTRL_EXCEVTENA_Pos P)
       = ExceptionOverheadCounterEvent o
    /\ Z.testbit (regs m' DWT_CTRL) (DWT_CTRL_CPIEVTENA_Pos P)
       = CPICounterEvent o
    /\ Z.testbit (regs m' DWT_CTRL) (DWT_CTRL_EXCTRCENA_Pos P)
       = ExceptionTrace o
    /\ Z.testbit (regs m' DWT_CTRL) (DWT_CTRL_PCSAMPLENA_Pos P)
       = PCSampling o
    /\ Z.testbit (regs m' DWT_CTRL) (DWT_CTRL_CYCCNTENA_Pos P) = true
    /\ extract (DWT_CTRL_SYNCTAP_Pos P) 2 (regs m' DWT_CTRL)
       = DWTSyncTap_int (SyncTap o)
    /\ extract (DWT_CTRL_CYCTAP_Pos P) 1 (regs m' DWT_CTRL)
       = DWTCycleTap_int (CycleTap o).
Proof.
  intros Hok Hp. exists (after_DWTSetup P o m).
  split; [apply DWTSetup_run; now apply DWT_CTRL_wide_layout|].
  cbn [after_DWTSetup regs]. rewrite upd_same, DWT_ctrl_word_wide.
  assert (Hl : layout_ok (DWT_ctrl_fields_wide P o) = true) by exact Hok.
  pose proof (DWT_ctrl_wide_fits P o Hp) as Hf.
  assert (Hfield : forall pos w v,
    In (mkField pos w v) (DWT_ctrl_fields_wide P o) ->
    extract pos w (u32 (word_of (DWT_ctrl_fields_wide P o))) = v).
  { intros pos w v Hin. exact (u32_word_of_extract _ (mkField pos w v) Hl Hf Hin). }
  split; [apply Hfield; cbn; tauto|].
  repeat split.
  1-7: apply (u32_word_of_flag _ _ _ Hl Hf); cbn; tauto.
  - apply (u32_word_of_flag _ _ true Hl Hf). cbn. tauto.
  - rewrite (Hfield _ _ (Z.land (DWTSyncTap_int (SyncTap o)) 3)) by (cbn; tauto).
    now destruct (SyncTap o).
  - rewrite (Hfield _ _ (Z.land (DWTCycleTap_int (CycleTap o)) 3)) by (cbn; tauto).
    now destruct (CycleTap o).
Qed.

Lemma DWTSetup_prescaler_above_16_witness :
  exists m' : machine,
    DWTSetup cm3 prescaler_200 idle_machine = Done tt m'
    /\ extract 1 8 (regs m' DWT_CTRL) = 199
    /\ Z.testbit (regs m' DWT_CTRL) 21 = true
    /\ Z.testbit (regs m' DWT_CTRL) 20 = false
    /\ Z.testbit (regs m' DWT_CTRL) 19 = false
    /\ Z.testbit (regs m' DWT_CTRL) 18 = false
    /\ Z.testbit (regs m' DWT_CTRL) 17 = false
    /\ Z.testbit (regs m' DWT_CTRL) 16 = false
    /\ Z.testbit (regs m' DWT_CTRL) 12 = true
    /\ Z.testbit (regs m' DWT_CTRL) 0 = true
    /\ extract 10 2 (regs m' DWT_CTRL) = 1
    /\ extract 9 1 (regs m' DWT_CTRL) = 0.
Proof.
  apply (DWTSetup_prescaler_above_16 cm3 prescaler_200 idle_machine).
  - reflexivity.
  - cbn. lia.
Defined.

(** X20. With a sampling prescaler of 0 the prescaler minus one is [-1]:
    in the word [DWTSetup] writes, every bit from the prescaler position up
    to bit 31 is set, whatever the flags and selectors. *)
Theorem DWTSetup_prescaler_zero (P : platform) (o : DWTOptions) (m : machine) :
  DWT_CTRL_layout_ok P = true ->
  SamplingPrescaler o = 0 ->
  exists m' : machine,
    DWTSetup P o m = Done tt m'
    /\ forall i : Z,
         DWT_CTRL_POSTPRESET_Pos P <= i < 32 ->
         Z.testbit (regs m' DWT_CTRL) i = true.
Proof.
  intros Hok Hp. exists (after_DWTSetup P o m).
  split; [now apply DWTSetup_run|].
  intros i Hi.
  assert (Hpos : 0 <= DWT_CTRL_POSTPRESET_Pos P).
  { rewrite <- (DWT_ctrl_layout P o) in Hok.
    pose proof (fields_placed _ Hok
                  (mkField (DWT_CTRL_POSTPRESET_Pos P) 4 (SamplingPrescaler o - 1)))
      as Hpl.
    apply placed_spec in Hpl; [cbn [f_pos] in Hpl; lia | cbn; tauto]. }
  change (regs (after_DWTSetup P o m) DWT_CTRL)
    with (u32 (word_of (DWT_ctrl_fields P o))).
  rewrite u32_testbit, testbit_word_of.
  apply andb_true_iff. split; [apply Z.ltb_lt; lia|].
  apply existsb_exists.
  exists (mkField (DWT_CTRL_POSTPRESET_Pos P) 4 (SamplingPrescaler o - 1)).
  split; [cbn; tauto|].
  rewrite testbit_encode by lia. cbn [f_value f_pos]. rewrite Hp.
  apply Z.bits_m1. lia.
Qed.

Lemma DWTSetup_prescaler_zero_witness :
  exists m' : machine,
    DWTSetup cm3 prescaler_0 idle_machine = Done tt m'
    /\ forall i : Z, 1 <= i < 32 -> Z.testbit (regs m' DWT_CTRL) i = true.
Proof.
  apply (DWTSetup_prescaler_zero cm3 prescaler_0 idle_machine); reflexivity.
Defined.
